(** * A limit order book: shallow embedding of [order_book.h] / [order_book.cpp]

    The book keeps resting orders in three indices that alias the same
    pooled nodes: two ordered maps from price to a FIFO of node pointers
    ([bids_], [asks_]), and a hash map from order id to node pointer
    ([order_lookup_]).  Nodes live in a bump-allocated [MemoryPool].

    Modelling choices, all read off the source:
    - [uint64_t] is [Z] with the wrap-around written out ([wrap64]);
    - [double price] is only ever used as an ordered map key and compared
      with [!=]; it is never computed with.  A price is modelled by its
      exact value in ticks, an integer (100.0 is 10000, 99.5 is 9950): all
      the book needs of a price is a total order with decidable equality.
      NaN, on which the comparators of [std::map] are no strict weak order
      and [!=] is not the negation of that order's equivalence, has no
      model, and the two zeros are one price;
    - an [OrderNode*] is a pool slot: (block index, slot index);
    - [std::map] is its in-order traversal: an association list, kept sorted
      by the map's comparator, searched and updated by key;
    - [std::list<OrderNode*>] is a list of pool slots; the iterator stored
      in a node ([list_iter]) designates the cell that holds that node;
    - a [std::vector<PriceLevel>] of the caller is its elements and its
      capacity; [max_size()] and the answers of the allocator are taken as
      parameters, and [get_snapshot] ends by returning or by one of the two
      exceptions of [reserve]. *)

From stdpp Require Import base numbers list gmap fin_maps sorting.

Local Open Scope Z_scope.

(** ** Machine integers *)

Definition wrap64 (z : Z) : Z := z `mod` 2 ^ 64.

Definition is_u64 (z : Z) : bool := (0 <=? z) && (z <? 2 ^ 64).

(** ** Plain records of the header *)

Record Order := mkOrder {
  order_id : Z;
  is_buy : bool;
  price : Z;
  quantity : Z;
  timestamp_ns : Z
}.

Record PriceLevel := mkPriceLevel {
  level_price : Z;
  level_total_quantity : Z
}.

(** [OrderNode]: the order, plus [list_iter], which is implicit in the model
    (see the header comment). *)
Record OrderNode := mkOrderNode { order : Order }.

#[global] Instance Order_inhabited : Inhabited Order :=
  populate (mkOrder 0 false 0 0 0).
#[global] Instance OrderNode_inhabited : Inhabited OrderNode :=
  populate (mkOrderNode inhabitant).

(** A node pointer: block index and slot index inside that block. *)
Definition handle : Type := (nat * nat)%type.

(** ** MemoryPool<OrderNode, 4096> *)

Module MemoryPool.

Definition BlockSize : nat := 4096.
Arguments BlockSize : simpl never.

(** [blocks_] is the number of blocks allocated so far; [current_block_] is
    always the last of them.  [storage] holds the objects that are alive
    in the slots. *)
Record t := mk {
  blocks_ : nat;
  current_slot_ : nat;
  storage : gmap handle OrderNode
}.

Definition current_block_ (p : t) : nat := pred (blocks_ p).

Definition allocate_block (p : t) : t :=
  {| blocks_ := S (blocks_ p); current_slot_ := 0; storage := storage p |}.

(** The constructor. *)
Definition new : t :=
  allocate_block {| blocks_ := 0; current_slot_ := 0; storage := ∅ |}.

Definition construct (o : Order) (p : t) : handle * t :=
  let p1 := if (BlockSize <=? current_slot_ p)%nat then allocate_block p else p in
  let ptr := (current_block_ p1, current_slot_ p1) in
  (ptr, {| blocks_ := blocks_ p1;
           current_slot_ := S (current_slot_ p1);
           storage := <[ptr := mkOrderNode o]> (storage p1) |}).

(** [ptr->~T()] and nothing else: the bump state is not touched. *)
Definition destroy (ptr : handle) (p : t) : t :=
  {| blocks_ := blocks_ p;
     current_slot_ := current_slot_ p;
     storage := delete ptr (storage p) |}.

(** Slots that [construct] has already handed out. *)
Definition handed_out (p : t) (h : handle) : Prop :=
  (S h.1 < blocks_ p ∧ h.2 < BlockSize)%nat ∨
  (S h.1 = blocks_ p ∧ h.2 < current_slot_ p)%nat.

End MemoryPool.

(** ** PriceLevelQueue *)

Module PriceLevelQueue.

Record t := mk {
  orders_ : list handle;
  total_quantity_ : Z
}.

(** A default-constructed queue. *)
Definition empty : t := {| orders_ := []; total_quantity_ := 0 |}.

Section WithMemory.
(** The memory through which [node->order] is read. *)
Variable mem : gmap handle OrderNode.

Definition add_order (node : handle) (q : t) : t :=
  {| orders_ := orders_ q ++ [node];
     total_quantity_ :=
       wrap64 (total_quantity_ q + quantity (order (mem !!! node))) |}.

(** [orders_.erase(node->list_iter)] removes the cell that holds [node]. *)
Fixpoint erase_cell (node : handle) (l : list handle) : list handle :=
  match l with
  | [] => []
  | h :: l' => if decide (h = node) then l' else h :: erase_cell node l'
  end.

Definition remove_order (node : handle) (q : t) : t :=
  {| orders_ := erase_cell node (orders_ q);
     total_quantity_ :=
       wrap64 (total_quantity_ q - quantity (order (mem !!! node))) |}.
End WithMemory.

Definition update_quantity (old_qty new_qty : Z) (q : t) : t :=
  {| orders_ := orders_ q;
     total_quantity_ := wrap64 (wrap64 (total_quantity_ q - old_qty) + new_qty) |}.

Definition is_empty (q : t) : bool :=
  match orders_ q with [] => true | _ => false end.

Definition get_total_quantity (q : t) : Z := total_quantity_ q.

End PriceLevelQueue.

(** ** std::map<double, V, Compare> *)

Module StdMap.
Section Ops.
Context {V : Type}.
(** The comparator: [std::greater] for bids, [std::less] for asks. *)
Variable comp : Z → Z → bool.

(** [find]: walk past the keys ordered before [k]; the first other key
    is either equivalent to [k] or shows that [k] is absent. *)
Fixpoint find (k : Z) (m : list (Z * V)) : option V :=
  match m with
  | [] => None
  | (k', v) :: m' =>
      if comp k' k then find k m'
      else if comp k k' then None
      else Some v
  end.

(** [m[k]]: value-initialise the entry when [k] is absent. *)
Fixpoint subscript (dflt : V) (k : Z) (m : list (Z * V)) : list (Z * V) :=
  match m with
  | [] => [(k, dflt)]
  | (k', v) :: m' =>
      if comp k' k then (k', v) :: subscript dflt k m'
      else if comp k k' then (k, dflt) :: m
      else m
  end.

(** A write through the reference or iterator obtained for [k]. *)
Fixpoint modify (f : V → V) (k : Z) (m : list (Z * V)) : list (Z * V) :=
  match m with
  | [] => []
  | (k', v) :: m' =>
      if comp k' k then (k', v) :: modify f k m'
      else if comp k k' then m
      else (k', f v) :: m'
  end.

(** [erase(it)] for the iterator obtained for [k]. *)
Fixpoint erase (k : Z) (m : list (Z * V)) : list (Z * V) :=
  match m with
  | [] => []
  | (k', v) :: m' =>
      if comp k' k then (k', v) :: erase k m'
      else if comp k k' then m
      else m'
  end.

Definition sorted (m : list (Z * V)) : Prop :=
  StronglySorted (λ a b, comp a.1 b.1 = true) m.
End Ops.
End StdMap.

(** ** OrderBook *)

Record OrderBook := mkOrderBook {
  bids_ : list (Z * PriceLevelQueue.t);
  asks_ : list (Z * PriceLevelQueue.t);
  order_lookup_ : gmap Z handle;
  order_pool_ : MemoryPool.t
}.

(** [std::greater<double>] and [std::less<double>]. *)
Definition greater : Z → Z → bool := Z.gtb.
Definition less : Z → Z → bool := Z.ltb.

(** The constructor: empty maps, a pool with its first block. *)
Definition OrderBook_new : OrderBook :=
  {| bids_ := []; asks_ := []; order_lookup_ := ∅; order_pool_ := MemoryPool.new |}.

Definition mem_of (s : OrderBook) : gmap handle OrderNode :=
  MemoryPool.storage (order_pool_ s).

Definition add_to_side (node : handle) (s : OrderBook) : OrderBook :=
  let mem := mem_of s in
  let price := price (order (mem !!! node)) in
  if is_buy (order (mem !!! node)) then
    let bids1 := StdMap.subscript greater PriceLevelQueue.empty price (bids_ s) in
    {| bids_ := StdMap.modify greater (PriceLevelQueue.add_order mem node) price bids1;
       asks_ := asks_ s;
       order_lookup_ := order_lookup_ s;
       order_pool_ := order_pool_ s |}
  else
    let asks1 := StdMap.subscript less PriceLevelQueue.empty price (asks_ s) in
    {| bids_ := bids_ s;
       asks_ := StdMap.modify less (PriceLevelQueue.add_order mem node) price asks1;
       order_lookup_ := order_lookup_ s;
       order_pool_ := order_pool_ s |}.

Definition remove_from_side (node : handle) (s : OrderBook) : OrderBook :=
  let mem := mem_of s in
  let price := price (order (mem !!! node)) in
  if is_buy (order (mem !!! node)) then
    match StdMap.find greater price (bids_ s) with
    | Some level =>
        let bids1 :=
          StdMap.modify greater (PriceLevelQueue.remove_order mem node) price (bids_ s) in
        {| bids_ :=
             if PriceLevelQueue.is_empty (PriceLevelQueue.remove_order mem node level)
             then StdMap.erase greater price bids1 else bids1;
           asks_ := asks_ s;
           order_lookup_ := order_lookup_ s;
           order_pool_ := order_pool_ s |}
    | None => s
    end
  else
    match StdMap.find less price (asks_ s) with
    | Some level =>
        let asks1 :=
          StdMap.modify less (PriceLevelQueue.remove_order mem node) price (asks_ s) in
        {| bids_ := bids_ s;
           asks_ :=
             if PriceLevelQueue.is_empty (PriceLevelQueue.remove_order mem node level)
             then StdMap.erase less price asks1 else asks1;
           order_lookup_ := order_lookup_ s;
           order_pool_ := order_pool_ s |}
    | None => s
    end.

(** Assignments to one member of the book. *)
Definition set_pool (p : MemoryPool.t) (s : OrderBook) : OrderBook :=
  {| bids_ := bids_ s; asks_ := asks_ s;
     order_lookup_ := order_lookup_ s; order_pool_ := p |}.

(** A write through [Order& order = node->order]: the object in the slot
    changes, the bump state of the pool does not. *)
Definition write_node (node : handle) (n : OrderNode) (s : OrderBook) : OrderBook :=
  set_pool {| MemoryPool.blocks_ := MemoryPool.blocks_ (order_pool_ s);
              MemoryPool.current_slot_ := MemoryPool.current_slot_ (order_pool_ s);
              MemoryPool.storage := <[node := n]> (mem_of s) |} s.

Definition set_lookup (m : gmap Z handle) (s : OrderBook) : OrderBook :=
  {| bids_ := bids_ s; asks_ := asks_ s;
     order_lookup_ := m; order_pool_ := order_pool_ s |}.

Definition add_order (o : Order) (s : OrderBook) : OrderBook :=
  match order_lookup_ s !! order_id o with
  | Some _ => s
  | None =>
      let '(node, pool1) := MemoryPool.construct o (order_pool_ s) in
      let s1 := add_to_side node (set_pool pool1 s) in
      set_lookup (<[order_id o := node]> (order_lookup_ s1)) s1
  end.

Definition cancel_order (id : Z) (s : OrderBook) : bool * OrderBook :=
  match order_lookup_ s !! id with
  | None => (false, s)
  | Some node =>
      let s1 := remove_from_side node s in
      let s2 := set_lookup (delete id (order_lookup_ s1)) s1 in
      (true, set_pool (MemoryPool.destroy node (order_pool_ s2)) s2)
  end.

Definition amend_order (id : Z) (new_price new_quantity : Z) (s : OrderBook)
  : bool * OrderBook :=
  match order_lookup_ s !! id with
  | None => (false, s)
  | Some node =>
      let o := order (mem_of s !!! node) in
      if decide (price o ≠ new_price) then
        let s1 := remove_from_side node s in
        let o' := mkOrder (order_id o) (is_buy o) new_price new_quantity (timestamp_ns o) in
        let s2 := write_node node (mkOrderNode o') s1 in
        (true, add_to_side node s2)
      else if decide (quantity o ≠ new_quantity) then
        let o' := mkOrder (order_id o) (is_buy o) (price o) new_quantity (timestamp_ns o) in
        if is_buy o then
          match StdMap.find greater (price o) (bids_ s) with
          | Some _ =>
              let old_qty := quantity o in
              let s1 := write_node node (mkOrderNode o') s in
              (true,
               {| bids_ := StdMap.modify greater
                    (PriceLevelQueue.update_quantity old_qty new_quantity) (price o) (bids_ s1);
                  asks_ := asks_ s1;
                  order_lookup_ := order_lookup_ s1;
                  order_pool_ := order_pool_ s1 |})
          | None => (true, s)
          end
        else
          match StdMap.find less (price o) (asks_ s) with
          | Some _ =>
              let old_qty := quantity o in
              let s1 := write_node node (mkOrderNode o') s in
              (true,
               {| bids_ := bids_ s1;
                  asks_ := StdMap.modify less
                    (PriceLevelQueue.update_quantity old_qty new_quantity) (price o) (asks_ s1);
                  order_lookup_ := order_lookup_ s1;
                  order_pool_ := order_pool_ s1 |})
          | None => (true, s)
          end
      else (true, s)
  end.

(** The loop of [get_snapshot] over one side: [out] is the vector being
    filled, [count] the loop counter.  [depth] is a [size_t]. *)
Fixpoint snapshot_loop (depth count : N) (levels : list (Z * PriceLevelQueue.t))
    (out : list PriceLevel) : list PriceLevel :=
  match levels with
  | [] => out
  | (p, level) :: rest =>
      if (depth <=? count)%N then out
      else snapshot_loop depth (N.succ count) rest
             (out ++ [mkPriceLevel p (PriceLevelQueue.get_total_quantity level)])
  end.

(** The two exceptions [std::vector::reserve] can throw. *)
Inductive exception := length_error | bad_alloc.

(** A [std::vector<PriceLevel>] of the caller: the elements it holds and the
    number of elements its storage has room for. *)
Module StdVector.

Record t := mk {
  elems : list PriceLevel;
  capacity : N
}.

(** [std::vector<PriceLevel> v;] *)
Definition new : t := {| elems := []; capacity := 0 |}.

(** [v.reserve(n)], as far as it can fail: [std::length_error] when [n]
    exceeds [max_size()]; nothing to do when the capacity is already there;
    otherwise the allocator is asked for storage, and [std::bad_alloc] leaves
    when it has none ([alloc] is its answer).  The elements are not touched. *)
Definition reserve (max n : N) (alloc : bool) (v : t) : option exception :=
  if (max <? n)%N then Some length_error
  else if (n <=? capacity v)%N then None
  else if alloc then None
  else Some bad_alloc.

End StdVector.

(** What [get_snapshot] meets outside the book and the two vectors:
    [max_size()] of [std::vector<PriceLevel>], a constant of the standard
    library, and what the allocator answers when the [reserve] of the one or
    the other vector asks it for storage. *)
Record Environment := mkEnvironment {
  max_size : N;
  alloc_bids : bool;
  alloc_asks : bool
}.

(** How a call of [get_snapshot] ends: the exception that left it, if any,
    and the elements of the two vectors of the caller as the call leaves
    them. *)
Record Snapshot := mkSnapshot {
  thrown : option exception;
  bids_out : list PriceLevel;
  asks_out : list PriceLevel
}.

(** [bids] and [asks] are the caller's vectors as they are at entry.  Both
    are cleared, which keeps their capacity, before the first [reserve], so
    an exception leaves both empty.  After the two [reserve] each vector has
    capacity for [depth] elements and the loops, which stop at [depth]
    elements, never allocate. *)
Definition get_snapshot (env : Environment) (depth : N)
    (bids asks : StdVector.t) (s : OrderBook) : Snapshot :=
  let bids0 : list PriceLevel := [] in
  let asks0 : list PriceLevel := [] in
  match StdVector.reserve (max_size env) depth (alloc_bids env) bids with
  | Some e => {| thrown := Some e; bids_out := bids0; asks_out := asks0 |}
  | None =>
      match StdVector.reserve (max_size env) depth (alloc_asks env) asks with
      | Some e => {| thrown := Some e; bids_out := bids0; asks_out := asks0 |}
      | None =>
          {| thrown := None;
             bids_out := snapshot_loop depth 0 (bids_ s) bids0;
             asks_out := snapshot_loop depth 0 (asks_ s) asks0 |}
      end
  end.

Definition get_order_count (s : OrderBook) : nat := size (order_lookup_ s).


(** ** Vocabulary of the specification *)

(** The side index of one side, and its comparator. *)
Definition side (buy : bool) (s : OrderBook) : list (Z * PriceLevelQueue.t) :=
  if buy then bids_ s else asks_ s.

Definition comp_of (buy : bool) : Z → Z → bool :=
  if buy then greater else less.

Definition set_side (buy : bool) (m : list (Z * PriceLevelQueue.t)) (s : OrderBook)
  : OrderBook :=
  if buy then
    {| bids_ := m; asks_ := asks_ s;
       order_lookup_ := order_lookup_ s; order_pool_ := order_pool_ s |}
  else
    {| bids_ := bids_ s; asks_ := m;
       order_lookup_ := order_lookup_ s; order_pool_ := order_pool_ s |}.

(** What [add_to_side] and [remove_from_side] do to the map of their side. *)
Definition push_level (comp : Z → Z → bool) (mem : gmap handle OrderNode)
    (node : handle) (p : Z) (m : list (Z * PriceLevelQueue.t)) :=
  StdMap.modify comp (PriceLevelQueue.add_order mem node) p
    (StdMap.subscript comp PriceLevelQueue.empty p m).

Definition pop_level (comp : Z → Z → bool) (mem : gmap handle OrderNode)
    (node : handle) (p : Z) (m : list (Z * PriceLevelQueue.t)) :=
  match StdMap.find comp p m with
  | Some level =>
      let m1 := StdMap.modify comp (PriceLevelQueue.remove_order mem node) p m in
      if PriceLevelQueue.is_empty (PriceLevelQueue.remove_order mem node level)
      then StdMap.erase comp p m1 else m1
  | None => m
  end.

(** All the nodes queued on one side, level after level, and in the book. *)
Definition level_handles (m : list (Z * PriceLevelQueue.t)) : list handle :=
  m ≫= (λ kv, PriceLevelQueue.orders_ kv.2).
Arguments level_handles : simpl never.

Definition book_handles (s : OrderBook) : list handle :=
  level_handles (bids_ s) ++ level_handles (asks_ s).

(** The sum, over the integers, of the quantities of the nodes of a queue. *)
Definition sum_quantity (mem : gmap handle OrderNode) (l : list handle) : Z :=
  foldr (λ h acc, quantity (order (mem !!! h)) + acc) 0 l.

(** The prices of a snapshot, in output order. *)
Definition prices (out : list PriceLevel) : list Z := level_price <$> out.

Definition entry (kv : Z * PriceLevelQueue.t) : PriceLevel :=
  mkPriceLevel kv.1 (PriceLevelQueue.total_quantity_ kv.2).

(** An [Order] as a caller can build it: the three [uint64_t] fields in range. *)
Definition valid_order (o : Order) : bool :=
  is_u64 (order_id o) && is_u64 (quantity o) && is_u64 (timestamp_ns o).

(** The states of a book: any sequence of public mutations from a new book. *)
Inductive reachable : OrderBook → Prop :=
  | reach_new : reachable OrderBook_new
  | reach_add o s :
      valid_order o = true → reachable s → reachable (add_order o s)
  | reach_cancel id s :
      reachable s → reachable (cancel_order id s).2
  | reach_amend id p q s :
      is_u64 q = true → reachable s → reachable (amend_order id p q s).2.

(** The invariant that ties the three indices and the pool together. *)
Record wf (s : OrderBook) : Prop := mk_wf {
  wf_bids_sorted : StdMap.sorted greater (bids_ s);
  wf_asks_sorted : StdMap.sorted less (asks_ s);
  wf_level : ∀ buy p level,
    StdMap.find (comp_of buy) p (side buy s) = Some level →
    PriceLevelQueue.orders_ level ≠ [] ∧
    PriceLevelQueue.total_quantity_ level
      = wrap64 (sum_quantity (mem_of s) (PriceLevelQueue.orders_ level)) ∧
    ∀ h, h ∈ PriceLevelQueue.orders_ level →
      ∃ n, mem_of s !! h = Some n ∧ price (order n) = p ∧ is_buy (order n) = buy ∧
           order_lookup_ s !! order_id (order n) = Some h;
  wf_lookup : ∀ id h,
    order_lookup_ s !! id = Some h →
    ∃ n level, mem_of s !! h = Some n ∧ order_id (order n) = id ∧
      StdMap.find (comp_of (is_buy (order n))) (price (order n))
                  (side (is_buy (order n)) s) = Some level ∧
      h ∈ PriceLevelQueue.orders_ level;
  wf_nodup : NoDup (book_handles s);
  wf_count : size (order_lookup_ s) = length (book_handles s);
  wf_mem : ∀ h n,
    mem_of s !! h = Some n →
    MemoryPool.handed_out (order_pool_ s) h ∧ is_u64 (quantity (order n)) = true;
  wf_slot :
    (MemoryPool.current_slot_ (order_pool_ s) ≤ MemoryPool.BlockSize)%nat ∧
    (1 ≤ MemoryPool.blocks_ (order_pool_ s))%nat
}.

(** The step that [add_order] and the second half of a price amend share:
    [node] holds [o], is queued at the tail of its level and indexed. *)
Definition link_node (node : handle) (o : Order) (pool : MemoryPool.t)
    (s : OrderBook) : OrderBook :=
  {| bids_ := if is_buy o
              then push_level greater (MemoryPool.storage pool) node (price o) (bids_ s)
              else bids_ s;
     asks_ := if is_buy o then asks_ s
              else push_level less (MemoryPool.storage pool) node (price o) (asks_ s);
     order_lookup_ := <[order_id o := node]> (order_lookup_ s);
     order_pool_ := pool |}.

(** The whole effect of a successful [cancel_order]: [node] leaves its level
    (which goes when it empties), the index and the pool. *)
Definition unlink_node (id : Z) (node : handle) (s : OrderBook) : OrderBook :=
  let o := order (mem_of s !!! node) in
  {| bids_ := if is_buy o
              then pop_level greater (mem_of s) node (price o) (bids_ s)
              else bids_ s;
     asks_ := if is_buy o then asks_ s
              else pop_level less (mem_of s) node (price o) (asks_ s);
     order_lookup_ := delete id (order_lookup_ s);
     order_pool_ := MemoryPool.destroy node (order_pool_ s) |}.

(** The three parts of the cross-index invariant, as a caller can observe
    them on the three indices. *)
Definition cross_index_consistent (s : OrderBook) : Prop :=
  (* (1), left to right: an indexed id has a live node that sits in one
     queue only, the one of its own side and price, and only once *)
  (∀ id h, order_lookup_ s !! id = Some h →
     ∃ n level,
       mem_of s !! h = Some n ∧ order_id (order n) = id ∧
       (price (order n), level) ∈ side (is_buy (order n)) s ∧
       h ∈ PriceLevelQueue.orders_ level ∧
       ∀ buy p level', (p, level') ∈ side buy s →
         h ∈ PriceLevelQueue.orders_ level' →
         buy = is_buy (order n) ∧ p = price (order n) ∧ level' = level) ∧
  NoDup (book_handles s) ∧
  (* (1), right to left: a queued node is indexed under its own id *)
  (∀ buy p level h, (p, level) ∈ side buy s →
     h ∈ PriceLevelQueue.orders_ level →
     ∃ n, mem_of s !! h = Some n ∧ is_buy (order n) = buy ∧ price (order n) = p ∧
          order_lookup_ s !! order_id (order n) = Some h) ∧
  (* (2): the cached total is the sum of the queue, in [uint64_t] arithmetic *)
  (∀ buy p level, (p, level) ∈ side buy s →
     PriceLevelQueue.total_quantity_ level
       = wrap64 (sum_quantity (mem_of s) (PriceLevelQueue.orders_ level)) ∧
     (sum_quantity (mem_of s) (PriceLevelQueue.orders_ level) < 2 ^ 64 →
      PriceLevelQueue.total_quantity_ level
        = sum_quantity (mem_of s) (PriceLevelQueue.orders_ level))) ∧
  (* (3): no empty level, so the index counts the queued nodes *)
  (∀ buy p level, (p, level) ∈ side buy s → PriceLevelQueue.orders_ level ≠ []) ∧
  get_order_count s = length (book_handles s).

(** ** Sample orders and books *)

(** The orders of [test_basic_operations] in [main.cpp], prices in ticks of
    0.01, and the books they build. *)
Definition order1 : Order := mkOrder 1 true 10000 10 0.
Definition order2 : Order := mkOrder 2 true 10000 20 0.
Definition order3 : Order := mkOrder 3 true 9950 15 0.
Definition order4 : Order := mkOrder 4 false 10100 25 0.
Definition order5 : Order := mkOrder 5 false 10150 30 0.

Definition book1 : OrderBook := add_order order1 OrderBook_new.
Definition book2 : OrderBook := add_order order2 book1.
Definition book3 : OrderBook := add_order order3 book2.
Definition book5 : OrderBook := add_order order5 (add_order order4 book3).

(** A 64-bit libstdc++ with memory to spare: [max_size()] is
    [PTRDIFF_MAX / sizeof(PriceLevel)], a [PriceLevel] taking 16 bytes. *)
Definition lp64 : Environment :=
  {| max_size := 2 ^ 59 - 1; alloc_bids := true; alloc_asks := true |}.

(** The same with no memory left for the second vector. *)
Definition lp64_short : Environment :=
  {| max_size := 2 ^ 59 - 1; alloc_bids := true; alloc_asks := false |}.

(** A vector that has held [v] and nothing longer. *)
Definition vector_of (v : list PriceLevel) : StdVector.t :=
  {| StdVector.elems := v; StdVector.capacity := N.of_nat (length v) |}.

(** The book of [test_fifo_priority]: three bids at one price. *)
Definition fifo_book : OrderBook :=
  add_order (mkOrder 3 true 10000 30 0) book2.

(** Two bids of 2^63 at one price: their sum does not fit 64 bits. *)
Definition big_book : OrderBook :=
  add_order (mkOrder 2 true 10000 (2 ^ 63) 0)
    (add_order (mkOrder 1 true 10000 (2 ^ 63) 0) OrderBook_new).

(** ** The rest of the two classes *)

(** Slots are handed out in one fixed sequence: block after block, slot
    after slot.  [slot_number] is the place of a slot in that sequence and
    [slots_used] the number of slots a pool has handed out. *)
Definition slot_number (h : handle) : nat :=
  (h.1 * MemoryPool.BlockSize + h.2)%nat.

Definition slots_used (p : MemoryPool.t) : nat :=
  (pred (MemoryPool.blocks_ p) * MemoryPool.BlockSize + MemoryPool.current_slot_ p)%nat.

(** The states of a pool: any sequence of [construct] and [destroy] on a
    new pool. *)
Inductive pool_reachable : MemoryPool.t → Prop :=
  | pool_reach_new : pool_reachable MemoryPool.new
  | pool_reach_construct o p :
      pool_reachable p → pool_reachable (MemoryPool.construct o p).2
  | pool_reach_destroy ptr p :
      pool_reachable p → pool_reachable (MemoryPool.destroy ptr p).

(** [~OrderBook]: the loop destroys the node of every entry of
    [order_lookup_].  The order in which a hash map is walked is not
    specified: [destroy_all] takes the entries in the order of the walk. *)
Definition destroy_all (entries : list (Z * handle)) (pool : MemoryPool.t)
  : MemoryPool.t :=
  foldl (λ pool entry, MemoryPool.destroy entry.2 pool) pool entries.

Definition OrderBook_destructor (s : OrderBook) : MemoryPool.t :=
  destroy_all (map_to_list (order_lookup_ s)) (order_pool_ s).

(** [pool_later p p']: the pool [p'] is the pool [p] after some more calls
    of [construct] and [destroy]. *)
Inductive pool_later (p : MemoryPool.t) : MemoryPool.t → Prop :=
  | pool_later_now : pool_later p p
  | pool_later_construct o p' :
      pool_later p p' → pool_later p (MemoryPool.construct o p').2
  | pool_later_destroy ptr p' :
      pool_later p p' → pool_later p (MemoryPool.destroy ptr p').

(** The FIFO at one price of one side; empty when there is no such level. *)
Definition queue_at (buy : bool) (p : Z) (s : OrderBook) : list handle :=
  default [] (PriceLevelQueue.orders_ <$> StdMap.find (comp_of buy) p (side buy s)).

(** * Facts *)

(** ** The assertions of [main.cpp]

    [test_basic_operations] and [test_fifo_priority], run on the model. *)

Example test_add_orders : get_order_count book5 = 5%nat.
Proof. reflexivity. Qed.

Example test_snapshot :
  get_snapshot lp64 2 StdVector.new StdVector.new book5
  = {| thrown := None;
       bids_out := [mkPriceLevel 10000 30; mkPriceLevel 9950 15];
       asks_out := [mkPriceLevel 10100 25; mkPriceLevel 10150 30] |}.
Proof. reflexivity. Qed.

Example test_cancel_order :
  (cancel_order 2 book5).1 = true ∧
  get_order_count (cancel_order 2 book5).2 = 4%nat ∧
  bids_out (get_snapshot lp64 2 StdVector.new StdVector.new (cancel_order 2 book5).2)
  = [mkPriceLevel 10000 10; mkPriceLevel 9950 15].
Proof. by vm_compute. Qed.

Example test_amend_quantity :
  let s := (cancel_order 2 book5).2 in
  (amend_order 1 10000 50 s).1 = true ∧
  bids_out (get_snapshot lp64 2 StdVector.new StdVector.new (amend_order 1 10000 50 s).2)
  = [mkPriceLevel 10000 50; mkPriceLevel 9950 15].
Proof. by vm_compute. Qed.

Example test_amend_price :
  let s := (amend_order 1 10000 50 (cancel_order 2 book5).2).2 in
  (amend_order 1 9900 50 s).1 = true ∧
  bids_out (get_snapshot lp64 3 StdVector.new StdVector.new (amend_order 1 9900 50 s).2)
  = [mkPriceLevel 9950 15; mkPriceLevel 9900 50].
Proof. by vm_compute. Qed.

Example test_fifo_aggregation :
  bids_out (get_snapshot lp64 1 StdVector.new StdVector.new fifo_book) = [mkPriceLevel 10000 60] ∧
  bids_out (get_snapshot lp64 1 StdVector.new StdVector.new (cancel_order 2 fifo_book).2) = [mkPriceLevel 10000 40].
Proof. by vm_compute. Qed.

(** Totals are [uint64_t]: two bids of 2^63 at one price give a total of 0,
    and cancelling one of them brings the total back to 2^63. *)
Example total_wraps :
  bids_out (get_snapshot lp64 1 StdVector.new StdVector.new big_book) = [mkPriceLevel 10000 0] ∧
  bids_out (get_snapshot lp64 1 StdVector.new StdVector.new (cancel_order 1 big_book).2) = [mkPriceLevel 10000 (2 ^ 63)].
Proof. by vm_compute. Qed.

(** ** Machine integers *)

Lemma wrap64_range z : 0 ≤ wrap64 z < 2 ^ 64.
Proof. unfold wrap64. apply Z.mod_pos_bound. done. Qed.

Lemma wrap64_small z : 0 ≤ z < 2 ^ 64 → wrap64 z = z.
Proof. unfold wrap64. intros. by apply Z.mod_small. Qed.

Lemma wrap64_idemp z : wrap64 (wrap64 z) = wrap64 z.
Proof. unfold wrap64. by rewrite Zmod_mod. Qed.

Lemma wrap64_add_l a b : wrap64 (wrap64 a + b) = wrap64 (a + b).
Proof. unfold wrap64. by rewrite Zplus_mod_idemp_l. Qed.

Lemma wrap64_sub_l a b : wrap64 (wrap64 a - b) = wrap64 (a - b).
Proof. unfold wrap64. by rewrite Zminus_mod_idemp_l. Qed.

Lemma is_u64_spec z : is_u64 z = true ↔ 0 ≤ z < 2 ^ 64.
Proof. unfold is_u64. lia. Qed.

(** ** The ordered maps

    The facts are stated for [comp_of buy], that is for both comparators
    the book instantiates [std::map] with. *)

Ltac comp_of_cases buy :=
  destruct buy; unfold comp_of, greater, less in *.

Section SideIndexFacts.
Context {V : Type}.
Implicit Types (m : list (Z * V)) (k : Z) (v : V).

Lemma find_subscript buy d k k' m :
  StdMap.find (comp_of buy) k' (StdMap.subscript (comp_of buy) d k m)
  = if decide (k' = k) then Some (default d (StdMap.find (comp_of buy) k m))
    else StdMap.find (comp_of buy) k' m.
Proof.
  comp_of_cases buy;
    (induction m as [|[k1 v1] m IH]; simpl;
     [ repeat case_match; try done; lia
     | repeat (case_match; simpl in *; simplify_eq; try done; try lia) ]).
Qed.

Lemma find_modify buy (f : V → V) k k' m :
  StdMap.find (comp_of buy) k' (StdMap.modify (comp_of buy) f k m)
  = if decide (k' = k) then f <$> StdMap.find (comp_of buy) k m
    else StdMap.find (comp_of buy) k' m.
Proof.
  comp_of_cases buy;
    (induction m as [|[k1 v1] m IH]; simpl;
     [ by case_match
     | repeat (case_match; simpl in *; simplify_eq; try done; try lia) ]).
Qed.

Lemma elem_of_subscript buy d k m x :
  x ∈ StdMap.subscript (comp_of buy) d k m → x ∈ m ∨ x = (k, d).
Proof.
  induction m as [|[k1 v1] m IH]; simpl.
  - rewrite list_elem_of_singleton. auto.
  - repeat case_match; rewrite ?elem_of_cons; [|tauto..].
    intros [?|[?|?]%IH]; auto.
Qed.

Lemma elem_of_modify buy (f : V → V) k m x :
  x ∈ StdMap.modify (comp_of buy) f k m → ∃ v, (x.1, v) ∈ m.
Proof.
  destruct x as [kx vx]. simpl.
  induction m as [|[k1 v1] m IH]; simpl.
  - by rewrite elem_of_nil.
  - repeat case_match.
    + intros [[= -> ->]|[v Hv]%IH]%elem_of_cons.
      * exists v1. by left.
      * exists v. by right.
    + intros Hin. by exists vx.
    + intros [[= -> ->]|Hin]%elem_of_cons.
      * exists v1. by left.
      * exists vx. by right.
Qed.

Lemma elem_of_erase buy k m x :
  x ∈ StdMap.erase (comp_of buy) k m → x ∈ m.
Proof.
  induction m as [|[k1 v1] m IH]; simpl; [done|].
  repeat case_match; rewrite ?elem_of_cons; auto.
  intros [?|?]; auto.
Qed.

Lemma sorted_inv buy k v m :
  StdMap.sorted (comp_of buy) ((k, v) :: m) →
  StdMap.sorted (comp_of buy) m ∧ ∀ x, x ∈ m → comp_of buy k x.1 = true.
Proof.
  intros Hs. apply StronglySorted_inv in Hs as [Hs Hall].
  split; [done|]. by apply Forall_forall.
Qed.

Lemma sorted_cons buy k v m :
  StdMap.sorted (comp_of buy) m →
  (∀ x, x ∈ m → comp_of buy k x.1 = true) →
  StdMap.sorted (comp_of buy) ((k, v) :: m).
Proof.
  intros Hs Hall. constructor; [done|]. by apply Forall_forall.
Qed.

Lemma sorted_subscript buy d k m :
  StdMap.sorted (comp_of buy) m →
  StdMap.sorted (comp_of buy) (StdMap.subscript (comp_of buy) d k m).
Proof.
  induction m as [|[k1 v1] m IH]; simpl; intros Hs.
  - apply sorted_cons; [constructor|]. intros x Hx. by apply elem_of_nil in Hx.
  - pose proof Hs as [Hm Hall]%sorted_inv.
    destruct (comp_of buy k1 k) eqn:E1.
    + apply sorted_cons; [by apply IH|].
      intros x [Hx | ->]%elem_of_subscript; [by apply Hall | done].
    + destruct (comp_of buy k k1) eqn:E2; [|done].
      apply sorted_cons; [done|].
      intros x [-> | Hx]%elem_of_cons; [done|].
      specialize (Hall x Hx). comp_of_cases buy; lia.
Qed.

Lemma sorted_modify buy (f : V → V) k m :
  StdMap.sorted (comp_of buy) m →
  StdMap.sorted (comp_of buy) (StdMap.modify (comp_of buy) f k m).
Proof.
  induction m as [|[k1 v1] m IH]; simpl; intros Hs; [done|].
  pose proof Hs as [Hm Hall]%sorted_inv.
  repeat case_match; try done.
  - apply sorted_cons; [by apply IH|].
    intros x [v Hx]%elem_of_modify. by apply (Hall (x.1, v)).
  - by apply sorted_cons.
Qed.

Lemma sorted_erase buy k m :
  StdMap.sorted (comp_of buy) m →
  StdMap.sorted (comp_of buy) (StdMap.erase (comp_of buy) k m).
Proof.
  induction m as [|[k1 v1] m IH]; simpl; intros Hs; [done|].
  pose proof Hs as [Hm Hall]%sorted_inv.
  repeat case_match; try done.
  apply sorted_cons; [by apply IH|].
  intros x Hx%elem_of_erase. by apply Hall.
Qed.

Lemma find_head_absent buy k k1 m :
  StdMap.sorted (comp_of buy) m →
  (∀ x, x ∈ m → comp_of buy k1 x.1 = true) →
  comp_of buy k1 k = false →
  StdMap.find (comp_of buy) k m = None.
Proof.
  destruct m as [|[k2 v2] m]; simpl; [done|].
  intros _ Hall Hk. specialize (Hall (k2, v2)). rewrite elem_of_cons in Hall.
  simpl in Hall. assert (comp_of buy k1 k2 = true) as H12 by auto.
  comp_of_cases buy; repeat case_match; try done; lia.
Qed.

Lemma find_erase buy k k' m :
  StdMap.sorted (comp_of buy) m →
  StdMap.find (comp_of buy) k' (StdMap.erase (comp_of buy) k m)
  = if decide (k' = k) then None else StdMap.find (comp_of buy) k' m.
Proof.
  induction m as [|[k1 v1] m IH]; simpl; intros Hs.
  - by case_match.
  - pose proof Hs as [Hm Hall]%sorted_inv. specialize (IH Hm).
    destruct (comp_of buy k1 k) eqn:E1; simpl.
    + rewrite IH. comp_of_cases buy; repeat case_match; try done; lia.
    + destruct (comp_of buy k k1) eqn:E2; simpl.
      * comp_of_cases buy; repeat case_match; try done; lia.
      * assert (k1 = k) as -> by (comp_of_cases buy; lia).
        destruct (decide (k' = k)) as [->|Hne].
        -- by apply (find_head_absent buy k k).
        -- destruct (comp_of buy k k') eqn:E3; [done|].
           assert (comp_of buy k' k = true) as -> by (comp_of_cases buy; lia).
           apply (find_head_absent buy k' k); [done..|].
           done.
Qed.

Lemma find_elem_of buy k v m :
  StdMap.sorted (comp_of buy) m →
  (k, v) ∈ m ↔ StdMap.find (comp_of buy) k m = Some v.
Proof.
  induction m as [|[k1 v1] m IH]; simpl; intros Hs.
  - rewrite elem_of_nil. by split.
  - pose proof Hs as [Hm Hall]%sorted_inv. specialize (IH Hm).
    rewrite elem_of_cons, IH. split.
    + intros [?|Hf]; simplify_eq.
      * comp_of_cases buy; repeat case_match; try done; lia.
      * destruct (comp_of buy k1 k) eqn:E1; [done|].
        rewrite (find_head_absent buy k k1 m) in Hf; done.
    + repeat case_match; [auto|done|].
      intros [= ->]. left. f_equal. comp_of_cases buy; lia.
Qed.

Lemma erase_modify buy (f : V → V) k m :
  StdMap.erase (comp_of buy) k (StdMap.modify (comp_of buy) f k m)
  = StdMap.erase (comp_of buy) k m.
Proof.
  induction m as [|[k1 v1] m IH]; simpl; [done|].
  destruct (comp_of buy k1 k) eqn:E1; simpl; rewrite ?E1; [by rewrite IH|].
  destruct (comp_of buy k k1) eqn:E2; simpl; by rewrite ?E1, ?E2.
Qed.

Lemma erase_subscript buy d k m :
  StdMap.find (comp_of buy) k m = None →
  StdMap.erase (comp_of buy) k (StdMap.subscript (comp_of buy) d k m) = m.
Proof.
  induction m as [|[k1 v1] m IH]; simpl.
  - intros _. comp_of_cases buy; repeat case_match; try done; lia.
  - destruct (comp_of buy k1 k) eqn:E1; simpl; rewrite ?E1.
    + intros Hf. by rewrite IH.
    + destruct (comp_of buy k k1) eqn:E2; simpl; [|done].
      intros _. comp_of_cases buy; repeat case_match; try done; lia.
Qed.

Lemma subscript_found buy d k v m :
  StdMap.find (comp_of buy) k m = Some v →
  StdMap.subscript (comp_of buy) d k m = m.
Proof.
  induction m as [|[k1 v1] m IH]; simpl; [done|].
  repeat case_match; try done. intros Hf. by rewrite IH.
Qed.

Lemma modify_modify buy (f g : V → V) k m :
  StdMap.modify (comp_of buy) f k (StdMap.modify (comp_of buy) g k m)
  = StdMap.modify (comp_of buy) (f ∘ g) k m.
Proof.
  induction m as [|[k1 v1] m IH]; simpl; [done|].
  destruct (comp_of buy k1 k) eqn:E1; simpl; rewrite ?E1; [by rewrite IH|].
  destruct (comp_of buy k k1) eqn:E2; simpl; by rewrite ?E1, ?E2.
Qed.

Lemma modify_same buy (f : V → V) k v m :
  StdMap.find (comp_of buy) k m = Some v → f v = v →
  StdMap.modify (comp_of buy) f k m = m.
Proof.
  induction m as [|[k1 v1] m IH]; simpl; [done|].
  repeat case_match; try done; intros Hf Hv.
  - by rewrite IH.
  - injection Hf as ->. by rewrite Hv.
Qed.

End SideIndexFacts.

(** ** FIFO cells and quantity sums *)

Lemma erase_cell_perm node (l : list handle) :
  node ∈ l → l ≡ₚ node :: PriceLevelQueue.erase_cell node l.
Proof.
  induction l as [|h l IH]; simpl; [by rewrite elem_of_nil|].
  destruct (decide (h = node)) as [->|Hne]; [done|].
  rewrite elem_of_cons. intros [?|Hin]; [congruence|].
  rewrite (IH Hin) at 1. apply perm_swap.
Qed.

Lemma erase_cell_notin node (l : list handle) :
  node ∉ l → PriceLevelQueue.erase_cell node l = l.
Proof.
  induction l as [|h l IH]; simpl; [done|].
  rewrite not_elem_of_cons. intros [Hne Hl].
  destruct (decide (h = node)); [congruence|]. by rewrite IH.
Qed.

Lemma erase_cell_tail node (l : list handle) :
  node ∉ l → PriceLevelQueue.erase_cell node (l ++ [node]) = l.
Proof.
  induction l as [|h l IH]; simpl.
  - intros _. by rewrite decide_True.
  - rewrite not_elem_of_cons. intros [Hne Hl].
    destruct (decide (h = node)); [congruence|]. by rewrite IH.
Qed.

Lemma elem_of_erase_cell node h (l : list handle) :
  NoDup l → h ∈ PriceLevelQueue.erase_cell node l ↔ h ∈ l ∧ h ≠ node.
Proof.
  induction l as [|h1 l IH]; simpl; intros Hnd.
  - rewrite elem_of_nil. tauto.
  - apply NoDup_cons in Hnd as [Hh1 Hnd]. specialize (IH Hnd).
    destruct (decide (h1 = node)) as [->|Hne].
    + rewrite elem_of_cons. split; [|by intros [[?|?] ?]].
      intros Hin. split; [by right|]. by intros ->.
    + rewrite !elem_of_cons, IH. split.
      * intros [->|[? ?]]; auto.
      * intros [[?|?] ?]; auto.
Qed.

Lemma erase_cell_sublist node (l : list handle) :
  PriceLevelQueue.erase_cell node l `sublist_of` l.
Proof.
  induction l as [|h l IH]; simpl; [done|].
  destruct (decide (h = node)); [by apply sublist_cons | by apply sublist_skip].
Qed.

Lemma sum_quantity_app mem (l1 l2 : list handle) :
  sum_quantity mem (l1 ++ l2) = sum_quantity mem l1 + sum_quantity mem l2.
Proof.
  induction l1 as [|h l1 IH]; simpl; [done|]. rewrite IH. lia.
Qed.

Lemma sum_quantity_insert_notin mem node n (l : list handle) :
  node ∉ l → sum_quantity (<[node := n]> mem) l = sum_quantity mem l.
Proof.
  induction l as [|h l IH]; simpl; [done|].
  rewrite not_elem_of_cons. intros [Hne Hl].
  rewrite IH by done. by rewrite lookup_total_insert_ne.
Qed.

Lemma sum_quantity_delete_notin mem node (l : list handle) :
  node ∉ l → sum_quantity (delete node mem) l = sum_quantity mem l.
Proof.
  induction l as [|h l IH]; simpl; [done|].
  rewrite not_elem_of_cons. intros [Hne Hl].
  rewrite IH by done. by rewrite lookup_total_delete_ne.
Qed.

Lemma sum_quantity_erase_cell mem node (l : list handle) :
  node ∈ l →
  sum_quantity mem l
  = quantity (order (mem !!! node)) + sum_quantity mem (PriceLevelQueue.erase_cell node l).
Proof.
  induction l as [|h l IH]; simpl; [by rewrite elem_of_nil|].
  destruct (decide (h = node)) as [->|Hne]; [done|].
  rewrite elem_of_cons. intros [?|Hin]; [congruence|].
  simpl. rewrite (IH Hin). lia.
Qed.

Lemma sum_quantity_insert_in mem node n (l : list handle) :
  NoDup l → node ∈ l →
  sum_quantity (<[node := n]> mem) l
  = sum_quantity mem l - quantity (order (mem !!! node)) + quantity (order n).
Proof.
  induction l as [|h l IH]; simpl; intros Hnd; [by rewrite elem_of_nil|].
  apply NoDup_cons in Hnd as [Hh Hnd].
  rewrite elem_of_cons. intros [<-|Hin].
  - rewrite lookup_total_insert_eq, sum_quantity_insert_notin by done. lia.
  - assert (h ≠ node) by (by intros ->).
    rewrite lookup_total_insert_ne, IH by done. lia.
Qed.

(** ** The nodes of a side *)

Lemma elem_of_level_handles h (m : list (Z * PriceLevelQueue.t)) :
  h ∈ level_handles m ↔ ∃ k level, (k, level) ∈ m ∧ h ∈ PriceLevelQueue.orders_ level.
Proof.
  unfold level_handles. rewrite list_elem_of_bind. split.
  - intros [[k level] [? ?]]. by exists k, level.
  - intros (k & level & ? & ?). by exists (k, level).
Qed.

Lemma level_handles_cons k level (m : list (Z * PriceLevelQueue.t)) :
  level_handles ((k, level) :: m) = PriceLevelQueue.orders_ level ++ level_handles m.
Proof. done. Qed.

Lemma level_handles_subscript buy k (m : list (Z * PriceLevelQueue.t)) :
  level_handles (StdMap.subscript (comp_of buy) PriceLevelQueue.empty k m)
  = level_handles m.
Proof.
  induction m as [|[k1 v1] m IH]; [done|].
  cbn [StdMap.subscript]. repeat case_match; try done.
  by rewrite !level_handles_cons, IH.
Qed.

Lemma level_handles_split buy k level (m : list (Z * PriceLevelQueue.t)) :
  StdMap.find (comp_of buy) k m = Some level →
  ∃ pre post,
    level_handles m = pre ++ PriceLevelQueue.orders_ level ++ post ∧
    (∀ f, level_handles (StdMap.modify (comp_of buy) f k m)
          = pre ++ PriceLevelQueue.orders_ (f level) ++ post) ∧
    level_handles (StdMap.erase (comp_of buy) k m) = pre ++ post.
Proof.
  induction m as [|[k1 v1] m IH]; [done|].
  cbn [StdMap.find StdMap.modify StdMap.erase].
  destruct (comp_of buy k1 k) eqn:E1.
  - intros (pre & post & H1 & H2 & H3)%IH.
    exists (PriceLevelQueue.orders_ v1 ++ pre), post.
    rewrite !level_handles_cons, H1, H3.
    split_and!; [by rewrite (assoc_L (++))| |by rewrite (assoc_L (++))].
    intros f. by rewrite level_handles_cons, H2, (assoc_L (++)).
  - destruct (comp_of buy k k1) eqn:E2; [done|].
    intros [= ->]. by exists [], (level_handles m).
Qed.

(** ** One step on one side *)

Lemma find_push_level buy mem node p p' m :
  StdMap.find (comp_of buy) p' (push_level (comp_of buy) mem node p m)
  = if decide (p' = p)
    then Some (PriceLevelQueue.add_order mem node
                 (default PriceLevelQueue.empty (StdMap.find (comp_of buy) p m)))
    else StdMap.find (comp_of buy) p' m.
Proof.
  unfold push_level. rewrite find_modify, !find_subscript.
  destruct (decide (p' = p)); [|done]. by rewrite decide_True.
Qed.

Lemma sorted_push_level buy mem node p m :
  StdMap.sorted (comp_of buy) m →
  StdMap.sorted (comp_of buy) (push_level (comp_of buy) mem node p m).
Proof. intros. by apply sorted_modify, sorted_subscript. Qed.

Lemma level_handles_push buy mem node p m :
  level_handles (push_level (comp_of buy) mem node p m) ≡ₚ node :: level_handles m.
Proof.
  unfold push_level.
  destruct (level_handles_split buy p
              (default PriceLevelQueue.empty (StdMap.find (comp_of buy) p m))
              (StdMap.subscript (comp_of buy) PriceLevelQueue.empty p m))
    as (pre & post & H1 & H2 & _).
  { rewrite find_subscript. by rewrite decide_True. }
  rewrite H2. rewrite level_handles_subscript in H1. rewrite H1. simpl.
  rewrite <- (assoc_L (++) _ [node] post). simpl.
  rewrite <- !Permutation_middle. done.
Qed.

Lemma sorted_pop_level buy mem node p m :
  StdMap.sorted (comp_of buy) m →
  StdMap.sorted (comp_of buy) (pop_level (comp_of buy) mem node p m).
Proof.
  intros. unfold pop_level. repeat case_match; try done.
  - by apply sorted_erase, sorted_modify.
  - by apply sorted_modify.
Qed.

Lemma find_pop_level buy mem node p p' level m :
  StdMap.sorted (comp_of buy) m →
  StdMap.find (comp_of buy) p m = Some level →
  StdMap.find (comp_of buy) p' (pop_level (comp_of buy) mem node p m)
  = if decide (p' = p)
    then (if PriceLevelQueue.is_empty (PriceLevelQueue.remove_order mem node level)
          then None else Some (PriceLevelQueue.remove_order mem node level))
    else StdMap.find (comp_of buy) p' m.
Proof.
  intros Hs Hf. unfold pop_level. rewrite Hf.
  destruct (PriceLevelQueue.is_empty _).
  - rewrite erase_modify, find_erase by done. done.
  - rewrite find_modify. destruct (decide (p' = p)) as [->|]; [|done].
    by rewrite Hf.
Qed.

Lemma level_handles_pop buy mem node p level m :
  StdMap.find (comp_of buy) p m = Some level →
  node ∈ PriceLevelQueue.orders_ level →
  level_handles m ≡ₚ node :: level_handles (pop_level (comp_of buy) mem node p m).
Proof.
  intros Hf Hin. unfold pop_level. rewrite Hf.
  destruct (level_handles_split buy p level m Hf) as (pre & post & H1 & H2 & H3).
  rewrite H1. rewrite (erase_cell_perm node _ Hin) at 1.
  destruct (PriceLevelQueue.is_empty _) eqn:E.
  - rewrite erase_modify, H3.
    unfold PriceLevelQueue.is_empty in E. simpl in E.
    destruct (PriceLevelQueue.erase_cell node _); [|done].
    simpl. by rewrite <- Permutation_middle.
  - rewrite H2. simpl. by rewrite <- Permutation_middle.
Qed.

(** ** The two helpers of the façade, side by side *)

Lemma side_set_side buy buy' m s :
  side buy' (set_side buy m s) = if decide (buy' = buy) then m else side buy' s.
Proof. by destruct buy, buy'. Qed.

Lemma mem_of_set_side buy m s : mem_of (set_side buy m s) = mem_of s.
Proof. by destruct buy. Qed.

Lemma lookup_set_side buy m s : order_lookup_ (set_side buy m s) = order_lookup_ s.
Proof. by destruct buy. Qed.

Lemma pool_set_side buy m s : order_pool_ (set_side buy m s) = order_pool_ s.
Proof. by destruct buy. Qed.

Lemma add_to_side_unfold node s :
  let o := order (mem_of s !!! node) in
  add_to_side node s
  = set_side (is_buy o)
      (push_level (comp_of (is_buy o)) (mem_of s) node (price o) (side (is_buy o) s)) s.
Proof. simpl. unfold add_to_side. by destruct (is_buy _). Qed.

Lemma remove_from_side_unfold node s :
  let o := order (mem_of s !!! node) in
  remove_from_side node s
  = set_side (is_buy o)
      (pop_level (comp_of (is_buy o)) (mem_of s) node (price o) (side (is_buy o) s)) s.
Proof.
  simpl. unfold remove_from_side, pop_level.
  destruct (is_buy _); simpl; case_match; by destruct s.
Qed.

Lemma side_link_node buy node o pool s :
  side buy (link_node node o pool s)
  = if decide (buy = is_buy o)
    then push_level (comp_of buy) (MemoryPool.storage pool) node (price o) (side buy s)
    else side buy s.
Proof. unfold link_node. by destruct buy, (is_buy o). Qed.

Lemma find_link_node buy p node o pool s :
  StdMap.find (comp_of buy) p (side buy (link_node node o pool s))
  = if decide (buy = is_buy o ∧ p = price o)
    then Some (PriceLevelQueue.add_order (MemoryPool.storage pool) node
                 (default PriceLevelQueue.empty
                    (StdMap.find (comp_of buy) p (side buy s))))
    else StdMap.find (comp_of buy) p (side buy s).
Proof.
  rewrite side_link_node. destruct (decide (buy = is_buy o)) as [->|Hb].
  - rewrite find_push_level. destruct (decide (p = price o)) as [->|Hp].
    + by rewrite decide_True.
    + rewrite decide_False; [done|]. by intros [_ ?].
  - rewrite decide_False; [done|]. by intros [? _].
Qed.

Lemma book_handles_link_node node o pool s :
  book_handles (link_node node o pool s) ≡ₚ node :: book_handles s.
Proof.
  unfold book_handles, link_node. simpl. destruct (is_buy o).
  - by rewrite (level_handles_push true).
  - rewrite (level_handles_push false). by rewrite <- Permutation_middle.
Qed.

(** ** The pool *)

Lemma construct_spec o p :
  (MemoryPool.current_slot_ p ≤ MemoryPool.BlockSize)%nat →
  (1 ≤ MemoryPool.blocks_ p)%nat →
  let node := (MemoryPool.construct o p).1 in
  let p1 := (MemoryPool.construct o p).2 in
  MemoryPool.storage p1 = <[node := mkOrderNode o]> (MemoryPool.storage p) ∧
  ¬ MemoryPool.handed_out p node ∧
  MemoryPool.handed_out p1 node ∧
  (∀ h, MemoryPool.handed_out p h → MemoryPool.handed_out p1 h) ∧
  (MemoryPool.current_slot_ p1 ≤ MemoryPool.BlockSize)%nat ∧
  (1 ≤ MemoryPool.blocks_ p1)%nat.
Proof.
  intros Hslot Hblocks. unfold MemoryPool.construct, MemoryPool.handed_out.
  destruct (MemoryPool.BlockSize <=? MemoryPool.current_slot_ p)%nat eqn:E;
    [apply Nat.leb_le in E | apply Nat.leb_gt in E];
    simpl; unfold MemoryPool.current_block_; simpl;
    (split_and!; [done | lia | lia | intros [? ?]; simpl; lia | | lia]);
    unfold MemoryPool.BlockSize in *; lia.
Qed.

(** ** What the invariant gives *)

Lemma find_in_book_handles buy p level h s :
  StdMap.sorted (comp_of buy) (side buy s) →
  StdMap.find (comp_of buy) p (side buy s) = Some level →
  h ∈ PriceLevelQueue.orders_ level →
  h ∈ book_handles s.
Proof.
  intros Hs Hf Hin. apply (find_elem_of buy) in Hf; [|done].
  unfold book_handles. rewrite elem_of_app, !elem_of_level_handles.
  destruct buy; [left|right]; eauto.
Qed.

Lemma wf_sorted buy s : wf s → StdMap.sorted (comp_of buy) (side buy s).
Proof. intros Hwf. destruct buy; apply Hwf. Qed.

Lemma book_handles_find h s :
  wf s → h ∈ book_handles s →
  ∃ buy p level,
    StdMap.find (comp_of buy) p (side buy s) = Some level ∧
    h ∈ PriceLevelQueue.orders_ level.
Proof.
  intros Hwf. unfold book_handles.
  rewrite elem_of_app, !elem_of_level_handles.
  intros [(p & level & Hin & Hh)|(p & level & Hin & Hh)];
    [exists true | exists false]; exists p, level; split; try done;
    by apply find_elem_of; [apply wf_sorted|].
Qed.

Lemma book_handles_live h s :
  wf s → h ∈ book_handles s → is_Some (mem_of s !! h).
Proof.
  intros Hwf (buy & p & level & Hf & Hin)%book_handles_find; [|done].
  destruct (wf_level s Hwf buy p level Hf) as (_ & _ & Hm).
  destruct (Hm h Hin) as (n & Hn & _). eauto.
Qed.

Lemma wf_level_nodup buy p level s :
  wf s → StdMap.find (comp_of buy) p (side buy s) = Some level →
  NoDup (PriceLevelQueue.orders_ level).
Proof.
  intros Hwf Hf. pose proof (wf_nodup s Hwf) as Hnd. unfold book_handles in Hnd.
  apply NoDup_app in Hnd as (Hb & _ & Ha).
  destruct (level_handles_split buy p level _ Hf) as (pre & post & H1 & _).
  destruct buy; simpl in H1; [rewrite H1 in Hb | rewrite H1 in Ha].
  - by apply NoDup_app in Hb as (_ & _ & (? & _)%NoDup_app).
  - by apply NoDup_app in Ha as (_ & _ & (? & _)%NoDup_app).
Qed.

Lemma wf_lookup_inj id1 id2 h s :
  wf s → order_lookup_ s !! id1 = Some h → order_lookup_ s !! id2 = Some h → id1 = id2.
Proof.
  intros Hwf H1 H2.
  destruct (wf_lookup s Hwf _ _ H1) as (n1 & _ & Hn1 & <- & _).
  destruct (wf_lookup s Hwf _ _ H2) as (n2 & _ & Hn2 & <- & _).
  congruence.
Qed.

(** ** Linking a node keeps the invariant *)

Lemma wf_level_default buy p s :
  wf s →
  let level := default PriceLevelQueue.empty
                 (StdMap.find (comp_of buy) p (side buy s)) in
  PriceLevelQueue.total_quantity_ level
    = wrap64 (sum_quantity (mem_of s) (PriceLevelQueue.orders_ level)) ∧
  ∀ h, h ∈ PriceLevelQueue.orders_ level →
    ∃ n, mem_of s !! h = Some n ∧ price (order n) = p ∧ is_buy (order n) = buy ∧
         order_lookup_ s !! order_id (order n) = Some h.
Proof.
  intros Hwf. destruct (StdMap.find _ _ _) as [level|] eqn:Hf; simpl.
  - by destruct (wf_level s Hwf buy p level Hf) as (_ & ? & ?).
  - split; [done|]. intros h Hin. by apply elem_of_nil in Hin.
Qed.

Lemma wf_link_node node o pool s :
  wf s →
  mem_of s !! node = None →
  order_lookup_ s !! order_id o = None →
  is_u64 (quantity o) = true →
  MemoryPool.storage pool = <[node := mkOrderNode o]> (mem_of s) →
  MemoryPool.handed_out pool node →
  (∀ h, MemoryPool.handed_out (order_pool_ s) h → MemoryPool.handed_out pool h) →
  (MemoryPool.current_slot_ pool ≤ MemoryPool.BlockSize)%nat →
  (1 ≤ MemoryPool.blocks_ pool)%nat →
  wf (link_node node o pool s).
Proof.
  intros Hwf Hfresh Hid Hq Hst Hout Hmono Hslot Hblocks.
  assert (mem_of (link_node node o pool s) = <[node := mkOrderNode o]> (mem_of s))
    as Hmem by done.
  assert (∀ h n, mem_of s !! h = Some n → h ≠ node) as Hne by (intros; congruence).
  assert (∀ buy p level h,
            StdMap.find (comp_of buy) p (side buy s) = Some level →
            h ∈ PriceLevelQueue.orders_ level → h ≠ node) as Hne'.
  { intros buy p level h Hf Hin.
    destruct (wf_level s Hwf buy p level Hf) as (_ & _ & Hm).
    destruct (Hm h Hin) as (n & Hn & _). eauto. }
  constructor.
  - unfold link_node; simpl. destruct (is_buy o); [|apply Hwf].
    apply (sorted_push_level true), Hwf.
  - unfold link_node; simpl. destruct (is_buy o); [apply Hwf|].
    apply (sorted_push_level false), Hwf.
  - intros buy p level. rewrite find_link_node, Hmem.
    change (order_lookup_ (link_node node o pool s))
      with (<[order_id o := node]> (order_lookup_ s)).
    destruct (decide _) as [[-> ->]|Hother].
    + intros [= <-]. rewrite Hst.
      destruct (wf_level_default (is_buy o) (price o) s Hwf) as [Htot Hmem0].
      set (level0 := default _ _) in *. simpl.
      assert (node ∉ PriceLevelQueue.orders_ level0) as Hnotin.
      { intros (n & Hn & _)%Hmem0. congruence. }
      split_and!.
      * by destruct (PriceLevelQueue.orders_ level0).
      * rewrite sum_quantity_app. simpl.
        rewrite !lookup_total_insert_eq, sum_quantity_insert_notin by done.
        rewrite Htot, wrap64_add_l. simpl. f_equal. lia.
      * intros h [Hin| ->%list_elem_of_singleton]%elem_of_app.
        -- destruct (Hmem0 h Hin) as (n & Hn & Hp & Hb & Hl). exists n.
           rewrite lookup_insert_ne by (intros <-; congruence).
           split_and!; try done.
           rewrite lookup_insert_ne; [done|]. congruence.
        -- exists (mkOrderNode o). by rewrite !lookup_insert_eq.
    + intros Hf. destruct (wf_level s Hwf buy p level Hf) as (Hne0 & Htot & Hm).
      split_and!; [done| |].
      * rewrite sum_quantity_insert_notin; [done|].
        intros Hin. by apply (Hne' buy p level node Hf).
      * intros h Hin. destruct (Hm h Hin) as (n & Hn & Hp & Hb & Hl). exists n.
        rewrite lookup_insert_ne by (intros <-; congruence).
        split_and!; try done.
        rewrite lookup_insert_ne; [done|]. congruence.
  - intros id h.
    change (order_lookup_ (link_node node o pool s))
      with (<[order_id o := node]> (order_lookup_ s)).
    rewrite Hmem. destruct (decide (id = order_id o)) as [->|Hidne].
    + rewrite lookup_insert_eq. intros [= <-].
      eexists (mkOrderNode o), _. rewrite lookup_insert_eq. cbn [order].
      split_and!; [done|done| |].
      * rewrite (find_link_node (is_buy o) (price o)). by rewrite decide_True.
      * simpl. apply elem_of_app. right. by apply list_elem_of_singleton.
    + rewrite lookup_insert_ne by done. intros Hl.
      destruct (wf_lookup s Hwf id h Hl) as (n & level & Hn & Hidn & Hf & Hin).
      rewrite lookup_insert_ne by (intros <-; congruence).
      pose proof (find_link_node (is_buy (order n)) (price (order n)) node o pool s)
        as Hfind.
      destruct (decide _) as [[Hb Hp]|Hother] in Hfind.
      * eexists n, _. split_and!; [done|done|apply Hfind|].
        rewrite Hf. simpl. apply elem_of_app. by left.
      * exists n, level. by rewrite Hfind.
  - rewrite book_handles_link_node. apply NoDup_cons. split; [|apply Hwf].
    intros [n Hn]%book_handles_live; [|done]. congruence.
  - rewrite book_handles_link_node. simpl.
    rewrite map_size_insert_None by done. f_equal. apply Hwf.
  - intros h n. rewrite Hmem. destruct (decide (h = node)) as [->|Hhne].
    + rewrite lookup_insert_eq. intros [= <-]. done.
    + rewrite lookup_insert_ne by done. intros Hn.
      destruct (wf_mem s Hwf h n Hn). split; [by apply Hmono|done].
  - done.
Qed.

Lemma add_order_unfold o s :
  order_lookup_ s !! order_id o = None →
  add_order o s
  = link_node (MemoryPool.construct o (order_pool_ s)).1 o
              (MemoryPool.construct o (order_pool_ s)).2 s.
Proof.
  intros Hid. unfold add_order. rewrite Hid.
  destruct (MemoryPool.construct o (order_pool_ s)) as [node pool1] eqn:Ec.
  assert (MemoryPool.storage pool1 !!! node = mkOrderNode o) as Hnode.
  { unfold MemoryPool.construct in Ec. injection Ec as <- <-. simpl.
    by rewrite lookup_total_insert_eq. }
  unfold add_to_side, link_node, set_lookup, set_pool, mem_of, push_level. simpl.
  rewrite Hnode. simpl. by destruct (is_buy o).
Qed.

Lemma wf_new : wf OrderBook_new.
Proof.
  constructor; simpl; try done.
  - constructor.
  - constructor.
  - by intros [] p level.
  - constructor.
  - unfold MemoryPool.BlockSize. lia.
Qed.

Lemma wf_add_order o s :
  is_u64 (quantity o) = true → wf s → wf (add_order o s).
Proof.
  intros Hq Hwf. destruct (order_lookup_ s !! order_id o) as [h|] eqn:Hid.
  { unfold add_order. by rewrite Hid. }
  rewrite add_order_unfold by done.
  destruct (wf_slot s Hwf) as [Hslot Hblocks].
  destruct (construct_spec o (order_pool_ s) Hslot Hblocks)
    as (Hst & Hnew & Hout & Hmono & Hslot' & Hblocks').
  apply wf_link_node; try done.
  destruct (mem_of s !! _) as [n|] eqn:Hn; [|done].
  by destruct (wf_mem s Hwf _ n Hn).
Qed.

(** ** Unlinking a node keeps the invariant *)

Lemma cancel_order_unfold id node s :
  order_lookup_ s !! id = Some node →
  cancel_order id s = (true, unlink_node id node s).
Proof.
  intros Hid. unfold cancel_order. rewrite Hid. f_equal.
  rewrite remove_from_side_unfold. unfold unlink_node, pop_level.
  destruct (is_buy _); simpl; done.
Qed.

Lemma side_unlink_node buy id node s :
  side buy (unlink_node id node s)
  = if decide (buy = is_buy (order (mem_of s !!! node)))
    then pop_level (comp_of buy) (mem_of s) node
           (price (order (mem_of s !!! node))) (side buy s)
    else side buy s.
Proof. unfold unlink_node. by destruct buy, (is_buy _). Qed.

Lemma find_unlink_node buy p id node level s :
  let o := order (mem_of s !!! node) in
  StdMap.sorted (comp_of (is_buy o)) (side (is_buy o) s) →
  StdMap.find (comp_of (is_buy o)) (price o) (side (is_buy o) s) = Some level →
  StdMap.find (comp_of buy) p (side buy (unlink_node id node s))
  = if decide (buy = is_buy o ∧ p = price o)
    then (if PriceLevelQueue.is_empty (PriceLevelQueue.remove_order (mem_of s) node level)
          then None
          else Some (PriceLevelQueue.remove_order (mem_of s) node level))
    else StdMap.find (comp_of buy) p (side buy s).
Proof.
  intros o Hs Hf. rewrite side_unlink_node. fold o.
  destruct (decide (buy = is_buy o)) as [->|Hb].
  - rewrite (find_pop_level _ _ _ _ _ level) by done.
    destruct (decide (p = price o)) as [->|Hp].
    + by rewrite decide_True.
    + rewrite decide_False; [done|]. by intros [_ ?].
  - rewrite decide_False; [done|]. by intros [? _].
Qed.

Lemma book_handles_unlink_node id node level s :
  let o := order (mem_of s !!! node) in
  StdMap.find (comp_of (is_buy o)) (price o) (side (is_buy o) s) = Some level →
  node ∈ PriceLevelQueue.orders_ level →
  book_handles s ≡ₚ node :: book_handles (unlink_node id node s).
Proof.
  intros o Hf Hin. unfold book_handles, unlink_node. fold o. simpl.
  destruct (is_buy o); simpl in Hf.
  - by rewrite (level_handles_pop true (mem_of s) node _ _ _ Hf Hin) at 1.
  - rewrite (level_handles_pop false (mem_of s) node _ _ _ Hf Hin) at 1.
    by rewrite <- Permutation_middle.
Qed.

Lemma is_empty_false level :
  PriceLevelQueue.is_empty level = false ↔ PriceLevelQueue.orders_ level ≠ [].
Proof. unfold PriceLevelQueue.is_empty. by destruct (PriceLevelQueue.orders_ _). Qed.

Lemma wf_unlink_node id node s :
  wf s → order_lookup_ s !! id = Some node → wf (unlink_node id node s).
Proof.
  intros Hwf Hid.
  destruct (wf_lookup s Hwf id node Hid) as (n & level & Hn & Hidn & Hf & Hin).
  pose proof (lookup_total_correct _ _ _ Hn) as Hn'.
  rewrite <- Hn' in Hf.
  pose proof (wf_sorted (is_buy (order (mem_of s !!! node))) s Hwf) as Hs.
  assert (NoDup (PriceLevelQueue.orders_ level)) as Hnd
    by (by eapply wf_level_nodup).
  assert (mem_of (unlink_node id node s) = delete node (mem_of s)) as Hmem by done.
  assert (∀ h n', mem_of s !! h = Some n' → h ≠ node →
            order_lookup_ s !! order_id (order n') = Some h →
            delete id (order_lookup_ s) !! order_id (order n') = Some h) as Hframe.
  { intros h n' Hh Hne Hl. rewrite lookup_delete_ne; [done|].
    intros Heq. rewrite <- Heq in Hl. congruence. }
  constructor.
  - unfold unlink_node; simpl. destruct (is_buy _); [|apply Hwf].
    apply (sorted_pop_level true), Hwf.
  - unfold unlink_node; simpl. destruct (is_buy _); [apply Hwf|].
    apply (sorted_pop_level false), Hwf.
  - intros buy p lvl. rewrite (find_unlink_node buy p id node level) by done.
    rewrite Hmem.
    change (order_lookup_ (unlink_node id node s)) with (delete id (order_lookup_ s)).
    destruct (decide _) as [[-> ->]|Hother].
    + destruct (PriceLevelQueue.is_empty _) eqn:E; [done|]. intros [= <-].
      apply is_empty_false in E.
      destruct (wf_level s Hwf _ _ level Hf) as (_ & Htot & Hm).
      split_and!; [done| |].
      * simpl. rewrite Htot, wrap64_sub_l.
        rewrite (sum_quantity_erase_cell _ node _ Hin).
        rewrite sum_quantity_delete_notin.
        { f_equal. lia. }
        rewrite elem_of_erase_cell by done. by intros [_ ?].
      * simpl. intros h [Hh Hne]%elem_of_erase_cell; [|done].
        destruct (Hm h Hh) as (n' & Hh' & Hp & Hb & Hl). exists n'.
        rewrite lookup_delete_ne by done. split_and!; try done. by eapply Hframe.
    + intros Hlvl. destruct (wf_level s Hwf buy p lvl Hlvl) as (Hne0 & Htot & Hm).
      assert (node ∉ PriceLevelQueue.orders_ lvl) as Hnotin.
      { intros (n' & Hh' & Hp & Hb & _)%Hm. apply Hother.
        rewrite Hn'. by simplify_eq. }
      split_and!; [done| |].
      * by rewrite sum_quantity_delete_notin.
      * intros h Hh. destruct (Hm h Hh) as (n' & Hh' & Hp & Hb & Hl). exists n'.
        assert (h ≠ node) by (by intros ->).
        rewrite lookup_delete_ne by done. split_and!; try done. by eapply Hframe.
  - intros id' h.
    change (order_lookup_ (unlink_node id node s)) with (delete id (order_lookup_ s)).
    rewrite Hmem. intros [Hidne Hl]%lookup_delete_Some.
    destruct (wf_lookup s Hwf id' h Hl) as (n' & lvl & Hh' & Hid' & Hf' & Hh).
    assert (h ≠ node) as Hne.
    { intros ->. apply Hidne. by eapply wf_lookup_inj. }
    rewrite lookup_delete_ne by done.
    pose proof (find_unlink_node (is_buy (order n')) (price (order n')) id node level s
                  Hs Hf) as Hfind.
    destruct (decide _) as [[Hb Hp]|Hother] in Hfind.
    * rewrite Hb, Hp, Hf in Hf'. injection Hf' as <-.
      assert (h ∈ PriceLevelQueue.erase_cell node (PriceLevelQueue.orders_ level))
        as Hh2 by (by apply elem_of_erase_cell).
      destruct (PriceLevelQueue.is_empty _) eqn:E in Hfind.
      { unfold PriceLevelQueue.is_empty in E. simpl in E.
        destruct (PriceLevelQueue.erase_cell _ _); [|done].
        by apply elem_of_nil in Hh2. }
      eexists n', _. split_and!; [done|done|apply Hfind|done].
    * exists n', lvl. by rewrite Hfind.
  - pose proof (wf_nodup s Hwf) as Hnodup.
    rewrite (book_handles_unlink_node id node level s Hf Hin) in Hnodup.
    by apply NoDup_cons in Hnodup as [_ ?].
  - change (order_lookup_ (unlink_node id node s)) with (delete id (order_lookup_ s)).
    rewrite map_size_delete_Some by eauto.
    rewrite (wf_count s Hwf).
    by rewrite (book_handles_unlink_node id node level s Hf Hin).
  - intros h n'. rewrite Hmem. intros [Hne Hh]%lookup_delete_Some.
    by apply (wf_mem s Hwf).
  - apply Hwf.
Qed.

Lemma wf_cancel_order id s : wf s → wf (cancel_order id s).2.
Proof.
  intros Hwf. destruct (order_lookup_ s !! id) as [node|] eqn:Hid.
  - rewrite (cancel_order_unfold id node) by done. by apply wf_unlink_node.
  - unfold cancel_order. by rewrite Hid.
Qed.

(** ** Amending keeps the invariant *)

Lemma mem_of_write_node node n s :
  mem_of (write_node node n s) = <[node := n]> (mem_of s).
Proof. done. Qed.

Lemma side_write_node buy node n s : side buy (write_node node n s) = side buy s.
Proof. by destruct buy. Qed.

Lemma amend_price_unfold id node new_price new_quantity s :
  let o := order (mem_of s !!! node) in
  let o' := mkOrder (order_id o) (is_buy o) new_price new_quantity (timestamp_ns o) in
  order_lookup_ s !! id = Some node →
  order_id o = id →
  price o ≠ new_price →
  amend_order id new_price new_quantity s
  = (true, link_node node o' (order_pool_ (write_node node (mkOrderNode o') s))
             (unlink_node id node s)).
Proof.
  intros o o' Hid Hoid Hp. unfold amend_order. rewrite Hid. fold o.
  rewrite decide_True by done. f_equal. fold o'.
  rewrite add_to_side_unfold, remove_from_side_unfold. fold o.
  rewrite mem_of_write_node, lookup_total_insert_eq, side_write_node.
  rewrite mem_of_set_side, side_set_side, decide_True by done.
  unfold link_node, unlink_node. fold o. clearbody o.
  unfold write_node, set_pool, mem_of.
  destruct (is_buy o); simpl;
    by rewrite Hoid, insert_delete_eq, (insert_id (order_lookup_ s) id node).
Qed.

Lemma wf_amend_price id node new_price new_quantity s :
  let o := order (mem_of s !!! node) in
  let o' := mkOrder (order_id o) (is_buy o) new_price new_quantity (timestamp_ns o) in
  wf s →
  order_lookup_ s !! id = Some node →
  is_u64 new_quantity = true →
  wf (link_node node o' (order_pool_ (write_node node (mkOrderNode o') s))
        (unlink_node id node s)).
Proof.
  intros o o' Hwf Hid Hq.
  destruct (wf_lookup s Hwf id node Hid) as (n & level & Hn & Hidn & Hf & Hin).
  pose proof (lookup_total_correct _ _ _ Hn) as Hn'.
  assert (order_id o = id) as Hoid by (unfold o; by rewrite Hn').
  destruct (wf_mem s Hwf node n Hn) as [Hout _].
  apply wf_link_node; simpl; try done.
  - by apply wf_unlink_node.
  - apply lookup_delete_eq.
  - rewrite Hoid. apply lookup_delete_eq.
  - unfold mem_of. simpl. by rewrite insert_delete_eq.
  - apply Hwf.
  - apply Hwf.
Qed.

Lemma amend_quantity_unfold id node new_price new_quantity level s :
  let o := order (mem_of s !!! node) in
  let o' := mkOrder (order_id o) (is_buy o) (price o) new_quantity (timestamp_ns o) in
  order_lookup_ s !! id = Some node →
  price o = new_price →
  quantity o ≠ new_quantity →
  StdMap.find (comp_of (is_buy o)) (price o) (side (is_buy o) s) = Some level →
  amend_order id new_price new_quantity s
  = (true,
     set_side (is_buy o)
       (StdMap.modify (comp_of (is_buy o))
          (PriceLevelQueue.update_quantity (quantity o) new_quantity)
          (price o) (side (is_buy o) s))
       (write_node node (mkOrderNode o') s)).
Proof.
  intros o o' Hid Hp Hq Hf. unfold amend_order. rewrite Hid. fold o.
  rewrite decide_False by (intros ?; done).
  rewrite decide_True by done.
  destruct (is_buy o); simpl in *; by rewrite Hf.
Qed.

Lemma wf_amend_quantity id node new_quantity level s :
  let o := order (mem_of s !!! node) in
  let o' := mkOrder (order_id o) (is_buy o) (price o) new_quantity (timestamp_ns o) in
  wf s →
  order_lookup_ s !! id = Some node →
  is_u64 new_quantity = true →
  StdMap.find (comp_of (is_buy o)) (price o) (side (is_buy o) s) = Some level →
  wf (set_side (is_buy o)
        (StdMap.modify (comp_of (is_buy o))
           (PriceLevelQueue.update_quantity (quantity o) new_quantity)
           (price o) (side (is_buy o) s))
        (write_node node (mkOrderNode o') s)).
Proof.
  intros o o' Hwf Hid Hq Hf.
  destruct (wf_lookup s Hwf id node Hid) as (n & level' & Hn & Hidn & Hf' & Hin).
  pose proof (lookup_total_correct _ _ _ Hn) as Hn'.
  rewrite <- Hn' in Hf'. fold o in Hf'. rewrite Hf in Hf'. injection Hf' as <-.
  assert (order_id o = id) as Hoid by (unfold o; by rewrite Hn').
  assert (NoDup (PriceLevelQueue.orders_ level)) as Hnd by (by eapply wf_level_nodup).
  set (s' := set_side _ _ _).
  assert (mem_of s' = <[node := mkOrderNode o']> (mem_of s)) as Hmem.
  { unfold s'. by rewrite mem_of_set_side. }
  assert (order_lookup_ s' = order_lookup_ s) as Hlk.
  { unfold s'. by rewrite lookup_set_side. }
  assert (∀ buy p,
    StdMap.find (comp_of buy) p (side buy s')
    = if decide (buy = is_buy o ∧ p = price o)
      then Some (PriceLevelQueue.update_quantity (quantity o) new_quantity level)
      else StdMap.find (comp_of buy) p (side buy s)) as Hfind.
  { intros buy p. unfold s'. rewrite side_set_side.
    destruct (decide (buy = is_buy o)) as [->|Hb].
    - rewrite find_modify. destruct (decide (p = price o)) as [->|Hp].
      + rewrite decide_True by done. by rewrite Hf.
      + rewrite decide_False by (by intros [_ ?]). by destruct (is_buy o).
    - rewrite decide_False by (by intros [? _]). by destruct buy. }
  assert (book_handles s' = book_handles s) as Hbh.
  { destruct (level_handles_split _ _ _ _ Hf) as (pre & post & H1 & H2 & _).
    specialize (H2 (PriceLevelQueue.update_quantity (quantity o) new_quantity)).
    simpl in H2. rewrite <- H1 in H2.
    unfold s', book_handles. destruct (is_buy o); simpl in *; by rewrite H2. }
  assert (∀ h n', mem_of s !! h = Some n' →
            ∃ n'', <[node := mkOrderNode o']> (mem_of s) !! h = Some n'' ∧
                   price (order n'') = price (order n') ∧
                   is_buy (order n'') = is_buy (order n') ∧
                   order_id (order n'') = order_id (order n')) as Hframe.
  { intros h n' Hh. destruct (decide (h = node)) as [->|Hne].
    - exists (mkOrderNode o'). rewrite lookup_insert_eq.
      assert (n' = n) as -> by congruence. unfold o', o. by rewrite Hn'.
    - exists n'. by rewrite lookup_insert_ne. }
  constructor.
  - unfold s'. destruct (is_buy o); simpl; [|apply Hwf].
    apply (sorted_modify true), Hwf.
  - unfold s'. destruct (is_buy o); simpl; [apply Hwf|].
    apply (sorted_modify false), Hwf.
  - intros buy p lvl. rewrite Hfind, Hmem, Hlk.
    destruct (decide _) as [[-> ->]|Hother].
    + intros [= <-]. destruct (wf_level s Hwf _ _ level Hf) as (Hne0 & Htot & Hm).
      split_and!; [done| |].
      * simpl. rewrite sum_quantity_insert_in by done. simpl. fold o.
        rewrite Htot, wrap64_sub_l, wrap64_add_l. done.
      * simpl. intros h Hh. destruct (Hm h Hh) as (n' & Hh' & Hp & Hb & Hl).
        destruct (Hframe h n' Hh') as (n'' & ? & Hp' & Hb' & Hi').
        exists n''. by rewrite Hp', Hb', Hi'.
    + intros Hlvl. destruct (wf_level s Hwf buy p lvl Hlvl) as (Hne0 & Htot & Hm).
      split_and!; [done| |].
      * rewrite sum_quantity_insert_notin; [done|].
        intros (n' & Hh' & Hp & Hb & _)%Hm. apply Hother.
        assert (n' = n) as -> by congruence. unfold o. by rewrite Hn'.
      * intros h Hh. destruct (Hm h Hh) as (n' & Hh' & Hp & Hb & Hl).
        destruct (Hframe h n' Hh') as (n'' & ? & Hp' & Hb' & Hi').
        exists n''. by rewrite Hp', Hb', Hi'.
  - intros id' h. rewrite Hlk, Hmem. intros Hl.
    destruct (wf_lookup s Hwf id' h Hl) as (n' & lvl & Hh' & Hid' & Hf' & Hh).
    destruct (Hframe h n' Hh') as (n'' & ? & Hp' & Hb' & Hi').
    pose proof (Hfind (is_buy (order n')) (price (order n'))) as Hfind'.
    rewrite <- Hp', <- Hb' in Hfind'.
    destruct (decide _) as [[Hb Hp]|Hother] in Hfind'.
    + eexists n'', _. split_and!; [done|congruence|apply Hfind'|].
      simpl. rewrite Hb' in Hb. rewrite Hp' in Hp.
      rewrite Hb, Hp, Hf in Hf'. by simplify_eq.
    + exists n'', lvl. rewrite Hfind'. split_and!; try done; try congruence.
  - rewrite Hbh. apply Hwf.
  - rewrite Hbh, Hlk. apply Hwf.
  - intros h n'. rewrite Hmem. unfold s'. rewrite pool_set_side.
    destruct (decide (h = node)) as [->|Hne].
    + rewrite lookup_insert_eq. intros [= <-]. split; [|done].
      by apply (wf_mem s Hwf node n).
    + rewrite lookup_insert_ne by done. apply (wf_mem s Hwf).
  - unfold s'. rewrite pool_set_side. apply Hwf.
Qed.

Lemma wf_amend_order id new_price new_quantity s :
  is_u64 new_quantity = true → wf s → wf (amend_order id new_price new_quantity s).2.
Proof.
  intros Hq Hwf. destruct (order_lookup_ s !! id) as [node|] eqn:Hid.
  2: { unfold amend_order. by rewrite Hid. }
  destruct (wf_lookup s Hwf id node Hid) as (n & level & Hn & Hidn & Hf & Hin).
  pose proof (lookup_total_correct _ _ _ Hn) as Hn'. rewrite <- Hn' in Hf, Hidn.
  destruct (decide (price (order (mem_of s !!! node)) = new_price)) as [Hp|Hp].
  - destruct (decide (quantity (order (mem_of s !!! node)) = new_quantity)) as [Hq'|Hq'].
    + unfold amend_order. rewrite Hid.
      rewrite decide_False by (intros ?; done).
      by rewrite decide_False by (intros ?; done).
    + rewrite (amend_quantity_unfold id node _ _ level) by done.
      by eapply wf_amend_quantity.
  - rewrite (amend_price_unfold id node) by done. by apply wf_amend_price.
Qed.

Lemma reachable_wf s : reachable s → wf s.
Proof.
  induction 1 as [|o s Hv _ IH|id s _ IH|id p q s Hq _ IH].
  - apply wf_new.
  - apply wf_add_order; [|done].
    unfold valid_order in Hv. by repeat (apply andb_prop in Hv as [Hv ?]).
  - by apply wf_cancel_order.
  - by apply wf_amend_order.
Qed.

(** ** Quantities of live nodes *)

Lemma sum_quantity_bounds s (l : list handle) h :
  (∀ h', h' ∈ l → ∃ n, mem_of s !! h' = Some n ∧ is_u64 (quantity (order n)) = true) →
  h ∈ l →
  0 ≤ quantity (order (mem_of s !!! h)) ≤ sum_quantity (mem_of s) l.
Proof.
  intros Hlive Hin.
  assert (∀ l', (∀ h', h' ∈ l' → h' ∈ l) → 0 ≤ sum_quantity (mem_of s) l') as Hpos.
  { induction l' as [|h' l' IH]; simpl; intros Hsub; [done|].
    destruct (Hlive h') as (n & Hn & Hq%is_u64_spec); [apply Hsub; left|].
    rewrite (lookup_total_correct _ _ _ Hn).
    assert (0 ≤ sum_quantity (mem_of s) l'); [|lia].
    apply IH. intros. apply Hsub. by right. }
  destruct (Hlive h Hin) as (n & Hn & Hq%is_u64_spec).
  rewrite (sum_quantity_erase_cell _ h l Hin).
  rewrite (lookup_total_correct _ _ _ Hn).
  assert (0 ≤ sum_quantity (mem_of s) (PriceLevelQueue.erase_cell h l)); [|lia].
  apply Hpos. intros h' Hh'. eapply elem_of_sublist; [done|].
  apply erase_cell_sublist.
Qed.

Lemma wf_level_live buy p level s :
  wf s → StdMap.find (comp_of buy) p (side buy s) = Some level →
  ∀ h, h ∈ PriceLevelQueue.orders_ level →
    ∃ n, mem_of s !! h = Some n ∧ is_u64 (quantity (order n)) = true.
Proof.
  intros Hwf Hf h Hin. destruct (wf_level s Hwf buy p level Hf) as (_ & _ & Hm).
  destruct (Hm h Hin) as (n & Hn & _). exists n. split; [done|].
  by apply (wf_mem s Hwf h n).
Qed.

Lemma wf_level_exact buy p level s :
  wf s → StdMap.find (comp_of buy) p (side buy s) = Some level →
  sum_quantity (mem_of s) (PriceLevelQueue.orders_ level) < 2 ^ 64 →
  PriceLevelQueue.total_quantity_ level
  = sum_quantity (mem_of s) (PriceLevelQueue.orders_ level).
Proof.
  intros Hwf Hf Hlt. destruct (wf_level s Hwf buy p level Hf) as (Hne & -> & _).
  apply wrap64_small. split; [|done].
  destruct (PriceLevelQueue.orders_ level) as [|h l] eqn:E; [done|].
  rewrite <- E in *.
  assert (h ∈ PriceLevelQueue.orders_ level) as Hin by (rewrite E; left).
  pose proof (sum_quantity_bounds s _ h (wf_level_live buy p level s Hwf Hf) Hin).
  lia.
Qed.

Lemma wf_consistent s : wf s → cross_index_consistent s.
Proof.
  intros Hwf.
  assert (∀ buy p level, (p, level) ∈ side buy s →
            StdMap.find (comp_of buy) p (side buy s) = Some level) as Hfind.
  { intros buy p level Hin. apply find_elem_of; [by apply wf_sorted|done]. }
  unfold cross_index_consistent. split_and!.
  - intros id h Hl.
    destruct (wf_lookup s Hwf id h Hl) as (n & level & Hn & Hid & Hf & Hin).
    exists n, level. split_and!; try done.
    + apply find_elem_of in Hf; [done|by apply wf_sorted].
    + intros buy p level' Hin' Hh. apply Hfind in Hin'.
      destruct (wf_level s Hwf buy p level' Hin') as (_ & _ & Hm).
      destruct (Hm h Hh) as (n' & Hn' & Hp & Hb & _).
      assert (n' = n) as -> by congruence. subst buy p.
      split_and!; try done. congruence.
  - apply Hwf.
  - intros buy p level h Hin%Hfind Hh.
    destruct (wf_level s Hwf buy p level Hin) as (_ & _ & Hm).
    destruct (Hm h Hh) as (n & ? & ? & ? & ?). by exists n.
  - intros buy p level Hin%Hfind. split.
    + by destruct (wf_level s Hwf buy p level Hin) as (_ & ? & _).
    + by apply (wf_level_exact buy p).
  - intros buy p level Hin%Hfind.
    by destruct (wf_level s Hwf buy p level Hin) as (? & _).
  - apply Hwf.
Qed.

(** * The specified properties *)

(** C1. In every state reachable from an empty book by [add_order],
    [cancel_order] and [amend_order], the three indices agree: (1) an order
    id is in the order index iff its node is in exactly one price-level
    queue, on the side and under the price stored in the node; (2) the
    cached total of every level is the sum of the quantities of its nodes
    (a [uint64_t] sum: it is the integer sum whenever that fits 64 bits);
    (3) no level is empty and [get_order_count] counts the queued nodes. *)
Theorem reachable_cross_index_consistent s :
  reachable s → cross_index_consistent s.
Proof. intros Hr. by apply wf_consistent, reachable_wf. Qed.

Lemma reachable_cross_index_consistent_witness :
  reachable book3 ∧ cross_index_consistent book3.
Proof.
  assert (reachable book3) as Hr.
  { repeat (apply reach_add; [reflexivity|]). apply reach_new. }
  split; [exact Hr|]. exact (reachable_cross_index_consistent book3 Hr).
Defined.

(** A live order, as the invariant sees it. *)
Lemma wf_live_order id h o s :
  wf s →
  order_lookup_ s !! id = Some h →
  mem_of s !! h = Some (mkOrderNode o) →
  mem_of s !!! h = mkOrderNode o ∧ order_id o = id ∧
  ∃ level,
    StdMap.find (comp_of (is_buy o)) (price o) (side (is_buy o) s) = Some level ∧
    h ∈ PriceLevelQueue.orders_ level.
Proof.
  intros Hwf Hid Hn.
  destruct (wf_lookup s Hwf id h Hid) as (n & level & Hn' & Hidn & Hf & Hin).
  assert (n = mkOrderNode o) as -> by congruence.
  split_and!; [by apply lookup_total_correct|done|by exists level].
Qed.

(** C2. A quantity-only amend of a live order [x] (id [id], node [h], held at
    [price o]) to a different quantity [q] returns true, writes [q] into the
    node, moves the total of the level by [q - quantity o] (in [uint64_t]
    arithmetic) and leaves the FIFO of the level, hence the place of [x] among
    the orders at that price, as it was. *)
Theorem amend_quantity_preserves_time_priority s id h o q :
  reachable s →
  order_lookup_ s !! id = Some h →
  mem_of s !! h = Some (mkOrderNode o) →
  quantity o ≠ q →
  ∃ level,
    StdMap.find (comp_of (is_buy o)) (price o) (side (is_buy o) s) = Some level ∧
    h ∈ PriceLevelQueue.orders_ level ∧
    let r := amend_order id (price o) q s in
    r.1 = true ∧
    mem_of r.2 !! h
      = Some (mkOrderNode (mkOrder (order_id o) (is_buy o) (price o) q (timestamp_ns o))) ∧
    StdMap.find (comp_of (is_buy o)) (price o) (side (is_buy o) r.2)
      = Some {| PriceLevelQueue.orders_ := PriceLevelQueue.orders_ level;
                PriceLevelQueue.total_quantity_ :=
                  wrap64 (PriceLevelQueue.total_quantity_ level + (q - quantity o)) |} ∧
    order_lookup_ r.2 = order_lookup_ s.
Proof.
  intros Hwf%reachable_wf Hid Hn Hq.
  destruct (wf_live_order id h o s Hwf Hid Hn) as (Hn' & Hoid & level & Hf & Hin).
  exists level. split_and!; [done|done|]. cbv zeta.
  pose proof (amend_quantity_unfold id h (price o) q level s) as Hstep.
  cbv zeta in Hstep. rewrite Hn' in Hstep. cbn [order] in Hstep.
  rewrite Hstep by done. cbn [fst snd].
  rewrite mem_of_set_side, mem_of_write_node, lookup_insert_eq.
  rewrite side_set_side, decide_True, find_modify, decide_True by done.
  rewrite Hf, lookup_set_side.
  split_and!; try done.
  simpl. unfold PriceLevelQueue.update_quantity. do 2 f_equal.
  rewrite wrap64_add_l. f_equal. lia.
Qed.

Lemma amend_quantity_preserves_time_priority_witness :
  ∃ level,
    StdMap.find greater 10000 (bids_ book3) = Some level ∧
    (0%nat, 0%nat) ∈ PriceLevelQueue.orders_ level ∧
    (amend_order 1 10000 50 book3).1 = true ∧
    mem_of (amend_order 1 10000 50 book3).2 !! (0%nat, 0%nat)
      = Some (mkOrderNode (mkOrder 1 true 10000 50 0)) ∧
    StdMap.find greater 10000 (bids_ (amend_order 1 10000 50 book3).2)
      = Some {| PriceLevelQueue.orders_ := PriceLevelQueue.orders_ level;
                PriceLevelQueue.total_quantity_ :=
                  wrap64 (PriceLevelQueue.total_quantity_ level + (50 - 10)) |} ∧
    order_lookup_ (amend_order 1 10000 50 book3).2 = order_lookup_ book3.
Proof.
  apply (amend_quantity_preserves_time_priority book3 1 (0%nat, 0%nat) order1 50).
  - repeat (apply reach_add; [reflexivity|]). apply reach_new.
  - reflexivity.
  - reflexivity.
  - discriminate.
Defined.

(** C9. Amending a live order [x] to quantity zero at its own price returns
    true and keeps [x] in the book: the index and the order count are
    unchanged, the FIFO of the level still holds the node, whose quantity is
    now zero, and the total of the level drops by the old quantity of [x]
    (exactly so whenever the sum of the level fits 64 bits).  A
    [cancel_order] would have taken the id out of the index. *)
Theorem amend_to_zero_keeps_order_live s id h o :
  reachable s →
  order_lookup_ s !! id = Some h →
  mem_of s !! h = Some (mkOrderNode o) →
  ∃ level,
    StdMap.find (comp_of (is_buy o)) (price o) (side (is_buy o) s) = Some level ∧
    h ∈ PriceLevelQueue.orders_ level ∧
    let r := amend_order id (price o) 0 s in
    r.1 = true ∧
    order_lookup_ r.2 = order_lookup_ s ∧
    get_order_count r.2 = get_order_count s ∧
    mem_of r.2 !! h
      = Some (mkOrderNode (mkOrder (order_id o) (is_buy o) (price o) 0 (timestamp_ns o))) ∧
    StdMap.find (comp_of (is_buy o)) (price o) (side (is_buy o) r.2)
      = Some {| PriceLevelQueue.orders_ := PriceLevelQueue.orders_ level;
                PriceLevelQueue.total_quantity_ :=
                  wrap64 (PriceLevelQueue.total_quantity_ level - quantity o) |} ∧
    (sum_quantity (mem_of s) (PriceLevelQueue.orders_ level) < 2 ^ 64 →
     wrap64 (PriceLevelQueue.total_quantity_ level - quantity o)
     = PriceLevelQueue.total_quantity_ level - quantity o) ∧
    order_lookup_ (cancel_order id s).2 !! id = None.
Proof.
  intros Hwf%reachable_wf Hid Hn.
  destruct (wf_live_order id h o s Hwf Hid Hn) as (Hn' & Hoid & level & Hf & Hin).
  exists level. split_and!; [done|done|]. cbv zeta.
  assert (order_lookup_ (cancel_order id s).2 !! id = None) as Hcancel.
  { rewrite (cancel_order_unfold id h) by done. apply lookup_delete_eq. }
  assert (sum_quantity (mem_of s) (PriceLevelQueue.orders_ level) < 2 ^ 64 →
          wrap64 (PriceLevelQueue.total_quantity_ level - quantity o)
          = PriceLevelQueue.total_quantity_ level - quantity o) as Hexact.
  { intros Hlt. rewrite (wf_level_exact _ _ _ _ Hwf Hf Hlt).
    pose proof (sum_quantity_bounds s _ h (wf_level_live _ _ _ s Hwf Hf) Hin) as Hb.
    rewrite Hn' in Hb. simpl in Hb. apply wrap64_small. lia. }
  destruct (decide (quantity o = 0)) as [Hq|Hq].
  - assert (amend_order id (price o) 0 s = (true, s)) as ->.
    { unfold amend_order. rewrite Hid, Hn'. cbn [order].
      rewrite decide_False by (intros ?; done).
      by rewrite decide_False by (intros ?; done). }
    cbn [fst snd]. rewrite Hn, Hf, Hq. split_and!; try done.
    + by destruct o; simpl in *; subst.
    + destruct (wf_level s Hwf _ _ level Hf) as (_ & Htot & _).
      destruct level as [l t]. simpl in *. do 2 f_equal.
      rewrite Z.sub_0_r, Htot. by rewrite wrap64_idemp.
    + by rewrite <- Hq.
  - pose proof (amend_quantity_unfold id h (price o) 0 level s) as Hstep.
    cbv zeta in Hstep. rewrite Hn' in Hstep. cbn [order] in Hstep.
    rewrite Hstep by done. cbn [fst snd]. unfold get_order_count.
    rewrite mem_of_set_side, mem_of_write_node, lookup_insert_eq.
    rewrite side_set_side, decide_True, find_modify, decide_True by done.
    rewrite Hf, lookup_set_side.
    split_and!; try done.
    simpl. unfold PriceLevelQueue.update_quantity. do 2 f_equal.
    rewrite Z.add_0_r. by rewrite wrap64_idemp.
Qed.

Lemma amend_to_zero_keeps_order_live_witness :
  ∃ level,
    StdMap.find greater 10000 (bids_ book3) = Some level ∧
    (0%nat, 1%nat) ∈ PriceLevelQueue.orders_ level ∧
    (amend_order 2 10000 0 book3).1 = true ∧
    order_lookup_ (amend_order 2 10000 0 book3).2 = order_lookup_ book3 ∧
    get_order_count (amend_order 2 10000 0 book3).2 = get_order_count book3 ∧
    mem_of (amend_order 2 10000 0 book3).2 !! (0%nat, 1%nat)
      = Some (mkOrderNode (mkOrder 2 true 10000 0 0)) ∧
    StdMap.find greater 10000 (bids_ (amend_order 2 10000 0 book3).2)
      = Some {| PriceLevelQueue.orders_ := PriceLevelQueue.orders_ level;
                PriceLevelQueue.total_quantity_ :=
                  wrap64 (PriceLevelQueue.total_quantity_ level - 20) |} ∧
    (sum_quantity (mem_of book3) (PriceLevelQueue.orders_ level) < 2 ^ 64 →
     wrap64 (PriceLevelQueue.total_quantity_ level - 20)
     = PriceLevelQueue.total_quantity_ level - 20) ∧
    order_lookup_ (cancel_order 2 book3).2 !! 2 = None.
Proof.
  apply (amend_to_zero_keeps_order_live book3 2 (0%nat, 1%nat) order2).
  - repeat (apply reach_add; [reflexivity|]). apply reach_new.
  - reflexivity.
  - reflexivity.
Defined.

(** C3. A price amend of a live order [x] (id [id], node [h]) to a price
    other than its own returns true; [x] leaves its old level, which is
    erased when no node is left in it and is kept, with the nodes that are
    left and the total less the quantity of [x], otherwise; the node gets
    the new price and quantity;
    [x] becomes the last node of the level at the new price on the same
    side, a level created on the spot when there was none; and the order
    index, which maps [id] to the same node, is not touched. *)
Theorem amend_price_forfeits_time_priority s id h o new_price q :
  reachable s →
  order_lookup_ s !! id = Some h →
  mem_of s !! h = Some (mkOrderNode o) →
  price o ≠ new_price →
  ∃ level,
    StdMap.find (comp_of (is_buy o)) (price o) (side (is_buy o) s) = Some level ∧
    h ∈ PriceLevelQueue.orders_ level ∧
    let r := amend_order id new_price q s in
    let rest :=
      {| PriceLevelQueue.orders_ :=
           PriceLevelQueue.erase_cell h (PriceLevelQueue.orders_ level);
         PriceLevelQueue.total_quantity_ :=
           wrap64 (PriceLevelQueue.total_quantity_ level - quantity o) |} in
    let arrival :=
      default PriceLevelQueue.empty
        (StdMap.find (comp_of (is_buy o)) new_price (side (is_buy o) s)) in
    r.1 = true ∧
    (h ∉ PriceLevelQueue.orders_ rest) ∧
    (PriceLevelQueue.orders_ rest = [] →
       StdMap.find (comp_of (is_buy o)) (price o) (side (is_buy o) r.2) = None) ∧
    (PriceLevelQueue.orders_ rest ≠ [] →
       StdMap.find (comp_of (is_buy o)) (price o) (side (is_buy o) r.2) = Some rest) ∧
    mem_of r.2 !! h
      = Some (mkOrderNode (mkOrder (order_id o) (is_buy o) new_price q (timestamp_ns o))) ∧
    StdMap.find (comp_of (is_buy o)) new_price (side (is_buy o) r.2)
      = Some {| PriceLevelQueue.orders_ := PriceLevelQueue.orders_ arrival ++ [h];
                PriceLevelQueue.total_quantity_ :=
                  wrap64 (PriceLevelQueue.total_quantity_ arrival + q) |} ∧
    last (PriceLevelQueue.orders_ arrival ++ [h]) = Some h ∧
    side (negb (is_buy o)) r.2 = side (negb (is_buy o)) s ∧
    order_lookup_ r.2 = order_lookup_ s.
Proof.
  intros Hwf%reachable_wf Hid Hn Hp.
  destruct (wf_live_order id h o s Hwf Hid Hn) as (Hn' & Hoid & level & Hf & Hin).
  exists level. split_and!; [done|done|]. cbv zeta.
  pose proof (wf_level_nodup _ _ _ _ Hwf Hf) as Hnd.
  pose proof (amend_price_unfold id h new_price q s) as Hstep.
  cbv zeta in Hstep. rewrite Hn' in Hstep. cbn [order] in Hstep.
  rewrite Hstep by done. clear Hstep. cbn [fst snd].
  set (o' := mkOrder (order_id o) (is_buy o) new_price q (timestamp_ns o)).
  set (pool' := order_pool_ (write_node h (mkOrderNode o') s)).
  pose proof (wf_sorted (is_buy o) s Hwf) as Hs.
  assert (∀ p, StdMap.find (comp_of (is_buy o)) p (side (is_buy o) (unlink_node id h s))
             = if decide (is_buy o = is_buy o ∧ p = price o)
               then (if PriceLevelQueue.is_empty
                          (PriceLevelQueue.remove_order (mem_of s) h level)
                     then None
                     else Some (PriceLevelQueue.remove_order (mem_of s) h level))
               else StdMap.find (comp_of (is_buy o)) p (side (is_buy o) s)) as Hunlink.
  { intros p.
    pose proof (find_unlink_node (is_buy o) p id h level s) as Hu.
    cbv zeta in Hu. rewrite Hn' in Hu. cbn [order] in Hu. by apply Hu. }
  split_and!.
  - done.
  - simpl. rewrite elem_of_erase_cell by done. by intros [_ ?].
  - intros Hrest. rewrite (find_link_node (is_buy o) (price o)).
    rewrite decide_False by (by intros [_ ?]).
    rewrite Hunlink, decide_True by done.
    unfold PriceLevelQueue.remove_order, PriceLevelQueue.is_empty. rewrite Hn'.
    cbn [PriceLevelQueue.orders_ order] in *. by rewrite Hrest.
  - intros Hrest. rewrite (find_link_node (is_buy o) (price o)).
    rewrite decide_False by (by intros [_ ?]).
    rewrite Hunlink, decide_True by done.
    unfold PriceLevelQueue.remove_order, PriceLevelQueue.is_empty. rewrite Hn'.
    cbn [PriceLevelQueue.orders_ order] in *.
    by destruct (PriceLevelQueue.erase_cell h (PriceLevelQueue.orders_ level)).
  - change (mem_of (link_node h o' pool' (unlink_node id h s)))
      with (<[h := mkOrderNode o']> (mem_of s)).
    by rewrite lookup_insert_eq.
  - rewrite (find_link_node (is_buy o) new_price).
    rewrite decide_True by done.
    rewrite Hunlink, decide_False by (by intros [_ ?]).
    unfold PriceLevelQueue.add_order, pool'. cbn [order_pool_ write_node set_pool].
    cbn [MemoryPool.storage]. by rewrite lookup_total_insert_eq.
  - apply last_snoc.
  - rewrite side_link_node, decide_False by (cbn; by destruct (is_buy o)).
    rewrite side_unlink_node, Hn', decide_False by (cbn; by destruct (is_buy o)).
    done.
  - unfold link_node, unlink_node. cbn [order_lookup_ order_id o'].
    by rewrite Hoid, insert_delete_eq, insert_id.
Qed.

Lemma amend_price_forfeits_time_priority_witness :
  ((amend_order 1 9950 50 book3).1 = true ∧
   StdMap.find greater 10000 (bids_ (amend_order 1 9950 50 book3).2)
     = Some {| PriceLevelQueue.orders_ := [(0%nat, 1%nat)];
               PriceLevelQueue.total_quantity_ := 20 |} ∧
   StdMap.find greater 9950 (bids_ (amend_order 1 9950 50 book3).2)
     = Some {| PriceLevelQueue.orders_ := [(0%nat, 2%nat); (0%nat, 0%nat)];
               PriceLevelQueue.total_quantity_ := 65 |} ∧
   order_lookup_ (amend_order 1 9950 50 book3).2 = order_lookup_ book3) ∧
  ((amend_order 3 9900 7 book3).1 = true ∧
   StdMap.find greater 9950 (bids_ (amend_order 3 9900 7 book3).2) = None ∧
   StdMap.find greater 9900 (bids_ (amend_order 3 9900 7 book3).2)
     = Some {| PriceLevelQueue.orders_ := [(0%nat, 2%nat)];
               PriceLevelQueue.total_quantity_ := 7 |} ∧
   order_lookup_ (amend_order 3 9900 7 book3).2 = order_lookup_ book3).
Proof.
  split.
  - destruct (amend_price_forfeits_time_priority book3 1 (0%nat, 0%nat) order1 9950 50)
      as (level & Hf & _ & Hr & _ & _ & Hold & _ & Hnew & _ & _ & Hlk).
    + repeat (apply reach_add; [reflexivity|]). apply reach_new.
    + reflexivity.
    + reflexivity.
    + discriminate.
    + injection Hf as <-.
      split_and!; [exact Hr|apply Hold; discriminate|exact Hnew|exact Hlk].
  - destruct (amend_price_forfeits_time_priority book3 3 (0%nat, 2%nat) order3 9900 7)
      as (level & Hf & _ & Hr & _ & Hgone & _ & _ & Hnew & _ & _ & Hlk).
    + repeat (apply reach_add; [reflexivity|]). apply reach_new.
    + reflexivity.
    + reflexivity.
    + discriminate.
    + injection Hf as <-.
      split_and!; [exact Hr|apply Hgone; reflexivity|exact Hnew|exact Hlk].
Defined.

(** ** Adding, then cancelling *)

Lemma pop_push_level buy mem node p (m : list (Z * PriceLevelQueue.t)) :
  let level0 :=
    default PriceLevelQueue.empty (StdMap.find (comp_of buy) p m) in
  node ∉ PriceLevelQueue.orders_ level0 →
  0 ≤ PriceLevelQueue.total_quantity_ level0 < 2 ^ 64 →
  (∀ level, StdMap.find (comp_of buy) p m = Some level →
            PriceLevelQueue.orders_ level ≠ []) →
  pop_level (comp_of buy) mem node p (push_level (comp_of buy) mem node p m) = m.
Proof.
  intros level0 Hnotin Hrange Hne.
  assert (PriceLevelQueue.remove_order mem node
            (PriceLevelQueue.add_order mem node level0) = level0) as Hback.
  { unfold PriceLevelQueue.remove_order, PriceLevelQueue.add_order. simpl.
    rewrite erase_cell_tail by done. rewrite wrap64_sub_l.
    destruct level0 as [l t]. simpl in *. f_equal.
    rewrite <- (wrap64_small t) at 2 by done. f_equal. lia. }
  unfold pop_level. rewrite find_push_level, decide_True by done.
  fold level0. rewrite Hback. unfold push_level.
  destruct (StdMap.find (comp_of buy) p m) as [level|] eqn:Hf.
  - rewrite (proj2 (is_empty_false level0)) by (by apply Hne).
    rewrite (subscript_found _ _ _ level) by done.
    rewrite modify_modify. by apply (modify_same _ _ _ level).
  - rewrite !erase_modify. by apply erase_subscript.
Qed.

(** C4, as it holds.  For an order whose id is not in the order index,
    [add_order] followed by [cancel_order] of that id succeeds and gives back
    the order index, both side indices and the live nodes of the pool; only
    the bump state of the pool has moved. *)
Theorem add_cancel_round_trip_fresh_id s o :
  reachable s →
  order_lookup_ s !! order_id o = None →
  let r := cancel_order (order_id o) (add_order o s) in
  r.1 = true ∧
  bids_ r.2 = bids_ s ∧
  asks_ r.2 = asks_ s ∧
  order_lookup_ r.2 = order_lookup_ s ∧
  mem_of r.2 = mem_of s.
Proof.
  intros Hwf%reachable_wf Hid. cbv zeta. rewrite add_order_unfold by done.
  destruct (wf_slot s Hwf) as [Hslot Hblocks].
  destruct (construct_spec o (order_pool_ s) Hslot Hblocks)
    as (Hst & Hnew & _).
  set (node := (MemoryPool.construct o (order_pool_ s)).1) in *.
  set (pool1 := (MemoryPool.construct o (order_pool_ s)).2) in *.
  assert (mem_of s !! node = None) as Hfresh.
  { destruct (mem_of s !! node) as [n|] eqn:Hn; [|done].
    by destruct (wf_mem s Hwf _ n Hn). }
  clearbody node pool1.
  rewrite (cancel_order_unfold _ node) by apply lookup_insert_eq.
  cbn [fst snd]. unfold unlink_node.
  change (mem_of (link_node node o pool1 s)) with (MemoryPool.storage pool1).
  rewrite Hst, lookup_total_insert_eq. cbn [order].
  assert (∀ buy,
    pop_level (comp_of buy) (<[node := mkOrderNode o]> (mem_of s)) node (price o)
      (push_level (comp_of buy) (<[node := mkOrderNode o]> (mem_of s)) node (price o)
         (side buy s)) = side buy s) as Hside.
  { intros buy. destruct (wf_level_default buy (price o) s Hwf) as [Htot Hm].
    apply pop_push_level.
    - intros (n & Hn & _)%Hm. congruence.
    - rewrite Htot. apply wrap64_range.
    - intros level Hf. by destruct (wf_level s Hwf buy _ level Hf). }
  unfold link_node, mem_of. simpl. fold (mem_of s). rewrite Hst.
  rewrite delete_insert_id by done. rewrite delete_insert_id by done.
  destruct (is_buy o); split_and!; try done.
  - apply (Hside true).
  - apply (Hside false).
Qed.

Lemma add_cancel_round_trip_fresh_id_witness :
  let r := cancel_order 3 (add_order order3 book2) in
  r.1 = true ∧
  bids_ r.2 = bids_ book2 ∧
  asks_ r.2 = asks_ book2 ∧
  order_lookup_ r.2 = order_lookup_ book2 ∧
  mem_of r.2 = mem_of book2.
Proof.
  apply (add_cancel_round_trip_fresh_id book2 order3).
  - repeat (apply reach_add; [reflexivity|]). apply reach_new.
  - reflexivity.
Defined.

(** C4, as it is stated, fails when the id of [o] is already live:
    [add_order] drops [o], and [cancel_order] then removes the order that was
    there before.  Here the book holds order 1 and the very same order is
    added again. *)
Lemma add_cancel_round_trip_duplicate_id :
  reachable book1 ∧ valid_order order1 = true ∧
  ¬ (let r := cancel_order (order_id order1) (add_order order1 book1) in
     bids_ r.2 = bids_ book1 ∧
     asks_ r.2 = asks_ book1 ∧
     order_lookup_ r.2 = order_lookup_ book1).
Proof.
  split_and!.
  - apply reach_add; [reflexivity|apply reach_new].
  - reflexivity.
  - intros [Hbids _]. vm_compute in Hbids. discriminate.
Qed.

(** ** The snapshot loop *)

Lemma snapshot_loop_spec depth count levels out :
  snapshot_loop depth count levels out
  = out ++ (entry <$> take (N.to_nat (depth - count)) levels).
Proof.
  revert count out. induction levels as [|[p level] rest IH]; intros count out.
  - simpl. by rewrite take_nil, app_nil_r.
  - simpl. destruct (depth <=? count)%N eqn:E.
    + apply N.leb_le in E. replace (depth - count)%N with 0%N by lia.
      by rewrite app_nil_r.
    + apply N.leb_gt in E. rewrite IH.
      replace (N.to_nat (depth - count)) with (S (N.to_nat (depth - N.succ count))) by lia.
      simpl. by rewrite <- (assoc_L (++)).
Qed.

Lemma sorted_take_drop buy (R : Z → Z → Prop) d (m : list (Z * PriceLevelQueue.t)) :
  (∀ a b, comp_of buy a b = true → R a b) →
  StdMap.sorted (comp_of buy) m →
  StronglySorted R (prices (entry <$> take d m)) ∧
  ∀ e kv, e ∈ entry <$> take d m → kv ∈ drop d m → R (level_price e) kv.1.
Proof.
  intros HR. revert d. induction m as [|[k v] m IH]; intros d Hs.
  - rewrite take_nil. split; [constructor|]. intros e kv Hin. by apply elem_of_nil in Hin.
  - destruct d as [|d]; simpl.
    { split; [constructor|]. intros e kv Hin. by apply elem_of_nil in Hin. }
    apply sorted_inv in Hs as [Hs Hall]. destruct (IH d Hs) as [IH1 IH2].
    split.
    + constructor; [done|]. apply Forall_forall. intros p Hp.
      unfold prices in Hp. rewrite <- list_fmap_compose in Hp.
      apply list_elem_of_fmap in Hp as (kv & -> & Hkv). simpl.
      apply HR, Hall. eapply elem_of_sublist; [done|]. apply sublist_take.
    + intros e kv [->|He]%elem_of_cons Hkv.
      * simpl. apply HR, Hall. eapply elem_of_sublist; [done|]. apply sublist_drop.
      * by apply IH2.
Qed.

(** ** How a snapshot ends *)

Lemma reserve_None max n alloc v :
  StdVector.reserve max n alloc v = None
  ↔ (n ≤ max)%N ∧ ((n ≤ StdVector.capacity v)%N ∨ alloc = true).
Proof.
  unfold StdVector.reserve. destruct (max <? n)%N eqn:E.
  - apply N.ltb_lt in E. split; [done | lia].
  - apply N.ltb_ge in E. destruct (n <=? StdVector.capacity v)%N eqn:E'.
    + apply N.leb_le in E'. tauto.
    + apply N.leb_gt in E'. destruct alloc.
      * tauto.
      * split; [done|]. intros [_ [?|?]]; [lia | done].
Qed.

Lemma reserve_length_error max n alloc v :
  StdVector.reserve max n alloc v = Some length_error ↔ (max < n)%N.
Proof.
  unfold StdVector.reserve. destruct (max <? n)%N eqn:E.
  - by apply N.ltb_lt in E.
  - apply N.ltb_ge in E. repeat case_match; split; try done; lia.
Qed.

Lemma reserve_bad_alloc max n alloc v :
  StdVector.reserve max n alloc v = Some bad_alloc
  ↔ (n ≤ max)%N ∧ (StdVector.capacity v < n)%N ∧ alloc = false.
Proof.
  unfold StdVector.reserve. destruct (max <? n)%N eqn:E.
  - apply N.ltb_lt in E. split; [done | lia].
  - apply N.ltb_ge in E. destruct (n <=? StdVector.capacity v)%N eqn:E'.
    + apply N.leb_le in E'. split; [done | lia].
    + apply N.leb_gt in E'. destruct alloc; split; try done. by intros (_ & _ & ?).
Qed.

Lemma get_snapshot_thrown env depth bids asks s :
  thrown (get_snapshot env depth bids asks s)
  = match StdVector.reserve (max_size env) depth (alloc_bids env) bids with
    | Some e => Some e
    | None => StdVector.reserve (max_size env) depth (alloc_asks env) asks
    end.
Proof. unfold get_snapshot. by repeat case_match. Qed.

Lemma get_snapshot_returns env depth bids asks s :
  thrown (get_snapshot env depth bids asks s) = None →
  bids_out (get_snapshot env depth bids asks s) = entry <$> take (N.to_nat depth) (bids_ s) ∧
  asks_out (get_snapshot env depth bids asks s) = entry <$> take (N.to_nat depth) (asks_ s).
Proof.
  unfold get_snapshot. repeat case_match; try done. intros _. cbn [bids_out asks_out].
  by rewrite !snapshot_loop_spec, !N.sub_0_r.
Qed.

Lemma get_snapshot_throws env depth bids asks s :
  thrown (get_snapshot env depth bids asks s) ≠ None →
  bids_out (get_snapshot env depth bids asks s) = [] ∧
  asks_out (get_snapshot env depth bids asks s) = [].
Proof. unfold get_snapshot. by repeat case_match. Qed.

(** C5 as it is written fails at a depth no vector can hold: on a 64-bit
    libstdc++ a snapshot of depth [SIZE_MAX] of the book of [main.cpp], which
    has two levels on each side, leaves by [std::length_error] with both
    vectors empty instead of two entries each. *)
Lemma get_snapshot_huge_depth_throws :
  reachable book5 ∧
  thrown (get_snapshot lp64 (2 ^ 64 - 1) StdVector.new StdVector.new book5)
    = Some length_error ∧
  N.min (2 ^ 64 - 1) (N.of_nat (length (bids_ book5))) = 2%N ∧
  N.min (2 ^ 64 - 1) (N.of_nat (length (asks_ book5))) = 2%N ∧
  ¬ (N.of_nat (length (bids_out
         (get_snapshot lp64 (2 ^ 64 - 1) StdVector.new StdVector.new book5)))
     = N.min (2 ^ 64 - 1) (N.of_nat (length (bids_ book5))) ∧
     N.of_nat (length (asks_out
         (get_snapshot lp64 (2 ^ 64 - 1) StdVector.new StdVector.new book5)))
     = N.min (2 ^ 64 - 1) (N.of_nat (length (asks_ book5)))).
Proof.
  split_and!.
  - repeat (apply reach_add; [reflexivity|]). apply reach_new.
  - reflexivity.
  - reflexivity.
  - reflexivity.
  - intros [Hbids _]. vm_compute in Hbids. discriminate.
Qed.

(** C5, amended.  Whatever the two output vectors hold at entry, a call of
    [get_snapshot] ends in one of two ways.  It returns exactly when [depth]
    is at most [max_size()] and each vector either has capacity for [depth]
    elements already or gets it from the allocator; then each vector holds
    the first [min depth n] levels of its side, [n] being the number of
    levels there, as (price, total) pairs: bids strictly descending from the
    highest bid, asks strictly ascending from the lowest ask, every level
    left out being worse than every level reported.  Otherwise it throws,
    [std::length_error] exactly when [depth] exceeds [max_size()] and
    [std::bad_alloc] else, and both vectors are left empty. *)
Theorem get_snapshot_shape_and_order env s depth bids asks :
  reachable s →
  let r := get_snapshot env depth bids asks s in
  (thrown r = None ↔
     (depth ≤ max_size env)%N ∧
     ((depth ≤ StdVector.capacity bids)%N ∨ alloc_bids env = true) ∧
     ((depth ≤ StdVector.capacity asks)%N ∨ alloc_asks env = true)) ∧
  (thrown r = Some length_error ↔ (max_size env < depth)%N) ∧
  (thrown r = Some bad_alloc ↔
     (depth ≤ max_size env)%N ∧
     ((StdVector.capacity bids < depth)%N ∧ alloc_bids env = false ∨
      (StdVector.capacity asks < depth)%N ∧ alloc_asks env = false)) ∧
  (thrown r ≠ None → bids_out r = [] ∧ asks_out r = []) ∧
  (thrown r = None →
     bids_out r = entry <$> take (N.to_nat depth) (bids_ s) ∧
     asks_out r = entry <$> take (N.to_nat depth) (asks_ s) ∧
     N.of_nat (length (bids_out r)) = N.min depth (N.of_nat (length (bids_ s))) ∧
     N.of_nat (length (asks_out r)) = N.min depth (N.of_nat (length (asks_ s))) ∧
     StronglySorted (λ p p', p > p') (prices (bids_out r)) ∧
     StronglySorted (λ p p', p < p') (prices (asks_out r)) ∧
     (∀ e kv, e ∈ bids_out r → kv ∈ drop (N.to_nat depth) (bids_ s) →
        level_price e > kv.1) ∧
     (∀ e kv, e ∈ asks_out r → kv ∈ drop (N.to_nat depth) (asks_ s) →
        level_price e < kv.1)).
Proof.
  intros Hwf%reachable_wf. cbv zeta. split_and!.
  - rewrite get_snapshot_thrown.
    destruct (StdVector.reserve _ _ (alloc_bids env) bids) as [e|] eqn:Eb.
    + split; [done|]. intros (Hd & Hb & _).
      assert (StdVector.reserve (max_size env) depth (alloc_bids env) bids = None) as Hn
        by by apply reserve_None.
      congruence.
    + apply reserve_None in Eb as [Hd Hb]. rewrite reserve_None. tauto.
  - rewrite get_snapshot_thrown.
    destruct (StdVector.reserve _ _ (alloc_bids env) bids) as [e|] eqn:Eb.
    + rewrite <- Eb. apply reserve_length_error.
    + apply reserve_length_error.
  - rewrite get_snapshot_thrown.
    destruct (StdVector.reserve _ _ (alloc_bids env) bids) as [[|]|] eqn:Eb.
    + apply reserve_length_error in Eb. split; [done | lia].
    + apply reserve_bad_alloc in Eb as (Hd & Hcap & Hno).
      split; [intros _; split; [done | by left] | done].
    + apply reserve_None in Eb as [Hd Hb]. rewrite reserve_bad_alloc. split.
      * intros (_ & Hcap & Hno). split; [done | by right].
      * intros [_ [[Hcap Hno]|[Hcap Hno]]]; [|done].
        destruct Hb as [Hb|Hb]; [lia | congruence].
  - apply get_snapshot_throws.
  - intros Hret. destruct (get_snapshot_returns _ _ _ _ _ Hret) as [-> ->].
    rewrite !length_fmap, !length_take.
    destruct (sorted_take_drop true (λ p p', p > p') (N.to_nat depth) (bids_ s))
      as [Hb1 Hb2]; [unfold comp_of, greater; lia | apply Hwf |].
    destruct (sorted_take_drop false (λ p p', p < p') (N.to_nat depth) (asks_ s))
      as [Ha1 Ha2]; [unfold comp_of, less; lia | apply Hwf |].
    split_and!; try done; lia.
Qed.

Lemma get_snapshot_shape_and_order_witness :
  (let r := get_snapshot lp64 1 (vector_of [mkPriceLevel 7 7]) StdVector.new book5 in
   thrown r = None ∧
   bids_out r = [mkPriceLevel 10000 30] ∧ asks_out r = [mkPriceLevel 10100 25]) ∧
  (let r := get_snapshot lp64_short 1 StdVector.new StdVector.new book5 in
   thrown r = Some bad_alloc ∧ bids_out r = [] ∧ asks_out r = []) ∧
  (let r := get_snapshot lp64_short 1 StdVector.new (vector_of [mkPriceLevel 7 7]) book5 in
   thrown r = None ∧
   bids_out r = [mkPriceLevel 10000 30] ∧ asks_out r = [mkPriceLevel 10100 25]).
Proof.
  assert (reachable book5) as Hreach.
  { repeat (apply reach_add; [reflexivity|]). apply reach_new. }
  split_and!; cbv zeta.
  - pose proof (get_snapshot_shape_and_order lp64 book5 1
                  (vector_of [mkPriceLevel 7 7]) StdVector.new Hreach) as H.
    cbv zeta in H. destruct H as (Hret & _ & _ & _ & Hshape).
    assert (thrown (get_snapshot lp64 1 (vector_of [mkPriceLevel 7 7])
                      StdVector.new book5) = None) as Hnone.
    { apply Hret. split_and!; [vm_compute; discriminate | by right | by right]. }
    destruct (Hshape Hnone) as (Hbids & Hasks & _).
    split_and!; [exact Hnone | exact Hbids | exact Hasks].
  - pose proof (get_snapshot_shape_and_order lp64_short book5 1
                  StdVector.new StdVector.new Hreach) as H.
    cbv zeta in H. destruct H as (_ & _ & Hbad & Hthrow & _).
    assert (thrown (get_snapshot lp64_short 1 StdVector.new StdVector.new book5)
            = Some bad_alloc) as Hthrown.
    { apply Hbad. split; [vm_compute; discriminate | right; split; reflexivity]. }
    destruct Hthrow as [Hbids Hasks]; [by rewrite Hthrown|].
    split_and!; [exact Hthrown | exact Hbids | exact Hasks].
  - pose proof (get_snapshot_shape_and_order lp64_short book5 1
                  StdVector.new (vector_of [mkPriceLevel 7 7]) Hreach) as H.
    cbv zeta in H. destruct H as (Hret & _ & _ & _ & Hshape).
    assert (thrown (get_snapshot lp64_short 1 StdVector.new
                      (vector_of [mkPriceLevel 7 7]) book5) = None) as Hnone.
    { apply Hret. split_and!; [vm_compute; discriminate | by right | left; vm_compute; discriminate]. }
    destruct (Hshape Hnone) as (Hbids & Hasks & _).
    split_and!; [exact Hnone | exact Hbids | exact Hasks].
Defined.

(** C6. [cancel_order] and [amend_order] return true exactly when the id is
    in the order index at the call, and a call that returns false leaves the
    whole book, pool included, as it was. *)
Theorem cancel_amend_existence_convention s id p q :
  ((cancel_order id s).1 = true ↔ is_Some (order_lookup_ s !! id)) ∧
  ((cancel_order id s).1 = false → (cancel_order id s).2 = s) ∧
  ((amend_order id p q s).1 = true ↔ is_Some (order_lookup_ s !! id)) ∧
  ((amend_order id p q s).1 = false → (amend_order id p q s).2 = s).
Proof.
  unfold cancel_order, amend_order.
  destruct (order_lookup_ s !! id) as [node|] eqn:Hid.
  - split_and!.
    + split; eauto.
    + done.
    + repeat case_match; split; eauto.
    + repeat case_match; done.
  - split_and!; try done; split; try done; by intros [? ?].
Qed.

(** C7. [add_order] with an id that is already in the order index returns
    the book it was given: both side indices with every FIFO and total, the
    order index (hence the order count) and the pool are all untouched,
    whatever the side, price and quantity of the duplicate. *)
Theorem add_order_duplicate_noop s o :
  is_Some (order_lookup_ s !! order_id o) → add_order o s = s.
Proof. intros [node Hid]. unfold add_order. by rewrite Hid. Qed.

Lemma add_order_duplicate_noop_witness :
  add_order (mkOrder 1 false 10150 77 5) book3 = book3.
Proof.
  apply (add_order_duplicate_noop book3 (mkOrder 1 false 10150 77 5)).
  exists (0%nat, 0%nat). reflexivity.
Defined.

(** ** The pool never hands a slot out twice *)

Lemma destroy_keeps_bump_state ptr p :
  MemoryPool.blocks_ (MemoryPool.destroy ptr p) = MemoryPool.blocks_ p ∧
  MemoryPool.current_slot_ (MemoryPool.destroy ptr p) = MemoryPool.current_slot_ p.
Proof. done. Qed.

Lemma construct_after_destroy_fresh o ptr p :
  (MemoryPool.current_slot_ p ≤ MemoryPool.BlockSize)%nat →
  (1 ≤ MemoryPool.blocks_ p)%nat →
  MemoryPool.handed_out p ptr →
  (MemoryPool.construct o (MemoryPool.destroy ptr p)).1 ≠ ptr.
Proof.
  intros Hslot Hblocks Hout Heq.
  destruct (construct_spec o (MemoryPool.destroy ptr p)) as (_ & Hnew & _); try done.
  apply Hnew. by rewrite Heq.
Qed.

(** C8, on the code.  [destroy] leaves the bump state alone, so the next
    [construct] returns the slot it would have returned anyway;
    after [add_order], [cancel_order], [add_order] on a new book the second
    node sits in slot 1 of block 0 while the released slot 0 stays empty. *)
Theorem destroyed_slot_is_not_handed_out_again :
  (∀ o ptr p,
     (MemoryPool.construct o (MemoryPool.destroy ptr p)).1
     = (MemoryPool.construct o p).1) ∧
  let s1 := add_order order1 OrderBook_new in
  let s2 := (cancel_order 1 s1).2 in
  let s3 := add_order order2 s2 in
  order_lookup_ s1 !! 1 = Some (0%nat, 0%nat) ∧
  mem_of s2 !! (0%nat, 0%nat) = None ∧
  order_lookup_ s3 !! 2 = Some (0%nat, 1%nat) ∧
  mem_of s3 !! (0%nat, 0%nat) = None ∧
  MemoryPool.current_slot_ (order_pool_ s3) = 2%nat.
Proof.
  split.
  - intros o ptr p. unfold MemoryPool.construct, MemoryPool.destroy.
    cbn [MemoryPool.current_slot_].
    by destruct (MemoryPool.BlockSize <=? MemoryPool.current_slot_ p)%nat.
  - by vm_compute.
Qed.

(** C10. [add_order] checks nothing but the id: any order whose id is not in
    the order index, a zero quantity or a zero id included, becomes a live
    order: it is indexed, its node holds it, the order count grows by one,
    and it is the last node of the level at its price on its side, whose
    total grows by its quantity (in [uint64_t] arithmetic). *)
Theorem add_order_accepts_any_order s o :
  order_lookup_ s !! order_id o = None →
  let s' := add_order o s in
  let level0 :=
    default PriceLevelQueue.empty
      (StdMap.find (comp_of (is_buy o)) (price o) (side (is_buy o) s)) in
  ∃ node,
    order_lookup_ s' !! order_id o = Some node ∧
    mem_of s' !! node = Some (mkOrderNode o) ∧
    get_order_count s' = S (get_order_count s) ∧
    StdMap.find (comp_of (is_buy o)) (price o) (side (is_buy o) s')
      = Some {| PriceLevelQueue.orders_ := PriceLevelQueue.orders_ level0 ++ [node];
                PriceLevelQueue.total_quantity_ :=
                  wrap64 (PriceLevelQueue.total_quantity_ level0 + quantity o) |}.
Proof.
  intros Hid. cbv zeta. rewrite add_order_unfold by done.
  set (node := (MemoryPool.construct o (order_pool_ s)).1).
  set (pool1 := (MemoryPool.construct o (order_pool_ s)).2).
  assert (MemoryPool.storage pool1 = <[node := mkOrderNode o]> (mem_of s)) as Hst.
  { unfold pool1, node, MemoryPool.construct, mem_of.
    by destruct (MemoryPool.BlockSize <=? MemoryPool.current_slot_ (order_pool_ s))%nat. }
  clearbody node pool1. exists node.
  change (mem_of (link_node node o pool1 s)) with (MemoryPool.storage pool1).
  rewrite (find_link_node (is_buy o) (price o)), decide_True by done.
  unfold get_order_count, PriceLevelQueue.add_order.
  cbn [link_node order_lookup_ PriceLevelQueue.orders_ PriceLevelQueue.total_quantity_].
  rewrite Hst, lookup_total_insert_eq, !lookup_insert_eq.
  by rewrite map_size_insert_None.
Qed.

Lemma add_order_accepts_any_order_witness :
  ∃ node,
    order_lookup_ (add_order (mkOrder 0 true 10000 0 0) book3) !! 0 = Some node ∧
    mem_of (add_order (mkOrder 0 true 10000 0 0) book3) !! node
      = Some (mkOrderNode (mkOrder 0 true 10000 0 0)) ∧
    get_order_count (add_order (mkOrder 0 true 10000 0 0) book3)
      = S (get_order_count book3) ∧
    StdMap.find greater 10000 (bids_ (add_order (mkOrder 0 true 10000 0 0) book3))
      = Some {| PriceLevelQueue.orders_ := [(0%nat, 0%nat); (0%nat, 1%nat)] ++ [node];
                PriceLevelQueue.total_quantity_ := wrap64 (30 + 0) |}.
Proof.
  apply (add_order_accepts_any_order book3 (mkOrder 0 true 10000 0 0)).
  reflexivity.
Defined.

(** * More of the code *)

(** ** The pool on its own *)

Lemma pool_reachable_ok p :
  pool_reachable p →
  (MemoryPool.current_slot_ p ≤ MemoryPool.BlockSize)%nat ∧
  (1 ≤ MemoryPool.blocks_ p)%nat ∧
  ∀ h n, MemoryPool.storage p !! h = Some n → MemoryPool.handed_out p h.
Proof.
  induction 1 as [|o p _ (Hslot & Hblocks & Hlive)|ptr p _ (Hslot & Hblocks & Hlive)].
  - split_and!; simpl; [unfold MemoryPool.BlockSize; lia|lia|done].
  - destruct (construct_spec o p Hslot Hblocks) as (Hst & _ & Hout & Hmono & ? & ?).
    split_and!; [done..|]. intros h n. rewrite Hst.
    destruct (decide (h = (MemoryPool.construct o p).1)) as [->|Hne].
    + done.
    + rewrite lookup_insert_ne by done. intros Hn. eapply Hmono, Hlive, Hn.
  - split_and!; [done..|]. intros h n Hn. simpl in Hn.
    apply lookup_delete_Some in Hn as [_ Hn]. by eapply Hlive.
Qed.

(** The pool is a bump allocator: [construct] returns the next slot of the
    sequence, inside the current block unless that block is full, in which
    case one block is added and its slot 0 returned. *)
Theorem construct_bump_numbering o p :
  pool_reachable p →
  let r := MemoryPool.construct o p in
  slot_number r.1 = slots_used p ∧
  slots_used r.2 = S (slots_used p) ∧
  (r.1.2 < MemoryPool.BlockSize)%nat ∧
  (r.1.1 < MemoryPool.blocks_ r.2)%nat ∧
  MemoryPool.blocks_ r.2
  = (if decide (MemoryPool.current_slot_ p = MemoryPool.BlockSize)
     then S (MemoryPool.blocks_ p) else MemoryPool.blocks_ p).
Proof.
  intros (Hslot & Hblocks & _)%pool_reachable_ok. cbv zeta.
  unfold MemoryPool.construct, slot_number, slots_used.
  destruct (MemoryPool.BlockSize <=? MemoryPool.current_slot_ p)%nat eqn:E;
    [apply Nat.leb_le in E | apply Nat.leb_gt in E];
    unfold MemoryPool.current_block_, MemoryPool.allocate_block; simpl;
    unfold MemoryPool.BlockSize in *; case_decide; split_and!; try done; lia.
Qed.

Lemma construct_bump_numbering_witness :
  let p := MemoryPool.destroy (0%nat, 0%nat) (MemoryPool.construct order1 MemoryPool.new).2 in
  let r := MemoryPool.construct order2 p in
  slot_number r.1 = slots_used p ∧
  slots_used r.2 = S (slots_used p) ∧
  (r.1.2 < MemoryPool.BlockSize)%nat ∧
  (r.1.1 < MemoryPool.blocks_ r.2)%nat ∧
  MemoryPool.blocks_ r.2
  = (if decide (MemoryPool.current_slot_ p = MemoryPool.BlockSize)
     then S (MemoryPool.blocks_ p) else MemoryPool.blocks_ p).
Proof.
  apply construct_bump_numbering.
  apply pool_reach_destroy, pool_reach_construct, pool_reach_new.
Defined.

(** [construct] never lands on a node that is alive, and it leaves every
    other slot of the pool as it was: live nodes are neither overwritten nor
    moved. *)
Theorem construct_keeps_live_nodes o p :
  pool_reachable p →
  let r := MemoryPool.construct o p in
  MemoryPool.storage p !! r.1 = None ∧
  MemoryPool.storage r.2 !! r.1 = Some (mkOrderNode o) ∧
  ∀ h, h ≠ r.1 → MemoryPool.storage r.2 !! h = MemoryPool.storage p !! h.
Proof.
  intros (Hslot & Hblocks & Hlive)%pool_reachable_ok. cbv zeta.
  destruct (construct_spec o p Hslot Hblocks) as (Hst & Hnew & _).
  rewrite Hst. split_and!.
  - destruct (MemoryPool.storage p !! _) as [n|] eqn:Hn; [|done].
    by apply Hlive in Hn.
  - apply lookup_insert_eq.
  - intros h Hne. by rewrite lookup_insert_ne.
Qed.

Lemma construct_keeps_live_nodes_witness :
  let p := (MemoryPool.construct order1 MemoryPool.new).2 in
  let r := MemoryPool.construct order2 p in
  MemoryPool.storage p !! r.1 = None ∧
  MemoryPool.storage r.2 !! r.1 = Some (mkOrderNode order2) ∧
  ∀ h, h ≠ r.1 → MemoryPool.storage r.2 !! h = MemoryPool.storage p !! h.
Proof.
  apply construct_keeps_live_nodes. apply pool_reach_construct, pool_reach_new.
Defined.

(** ** A queue on its own *)

(** Removing the node that was just appended gives the queue back, total
    included, as long as the node was not queued before and the total is a
    [uint64_t]. *)
Theorem queue_add_remove_round_trip mem node q :
  node ∉ PriceLevelQueue.orders_ q →
  0 ≤ PriceLevelQueue.total_quantity_ q < 2 ^ 64 →
  PriceLevelQueue.remove_order mem node (PriceLevelQueue.add_order mem node q) = q.
Proof.
  intros Hnotin Hrange.
  unfold PriceLevelQueue.remove_order, PriceLevelQueue.add_order. simpl.
  rewrite erase_cell_tail by done. rewrite wrap64_sub_l.
  destruct q as [l t]. simpl in *. f_equal.
  rewrite <- (wrap64_small t) at 2 by done. f_equal. lia.
Qed.

Lemma queue_add_remove_round_trip_witness :
  let q := {| PriceLevelQueue.orders_ := [(0%nat, 0%nat)];
              PriceLevelQueue.total_quantity_ := 2 ^ 64 - 1 |} in
  PriceLevelQueue.remove_order (mem_of book3) (0%nat, 1%nat)
    (PriceLevelQueue.add_order (mem_of book3) (0%nat, 1%nat) q) = q.
Proof.
  apply queue_add_remove_round_trip.
  - simpl. intros Hin. apply list_elem_of_singleton in Hin. discriminate Hin.
  - simpl. lia.
Defined.

(** ** What the helpers leave alone *)

Lemma mem_of_add_to_side node s : mem_of (add_to_side node s) = mem_of s.
Proof. rewrite add_to_side_unfold. apply mem_of_set_side. Qed.

Lemma lookup_add_to_side node s :
  order_lookup_ (add_to_side node s) = order_lookup_ s.
Proof. rewrite add_to_side_unfold. apply lookup_set_side. Qed.

Lemma pool_add_to_side node s : order_pool_ (add_to_side node s) = order_pool_ s.
Proof. rewrite add_to_side_unfold. apply pool_set_side. Qed.

Lemma mem_of_remove_from_side node s : mem_of (remove_from_side node s) = mem_of s.
Proof. rewrite remove_from_side_unfold. apply mem_of_set_side. Qed.

Lemma lookup_remove_from_side node s :
  order_lookup_ (remove_from_side node s) = order_lookup_ s.
Proof. rewrite remove_from_side_unfold. apply lookup_set_side. Qed.

Lemma pool_remove_from_side node s :
  order_pool_ (remove_from_side node s) = order_pool_ s.
Proof. rewrite remove_from_side_unfold. apply pool_set_side. Qed.

(** What [amend_order] does to the index and to the pool, in any state: the
    index and the bump state are kept, and the only write goes to the node of
    the amended id. *)
Lemma amend_order_effect id node new_price new_quantity s :
  order_lookup_ s !! id = Some node →
  let o := order (mem_of s !!! node) in
  let r := amend_order id new_price new_quantity s in
  r.1 = true ∧
  order_lookup_ r.2 = order_lookup_ s ∧
  MemoryPool.blocks_ (order_pool_ r.2) = MemoryPool.blocks_ (order_pool_ s) ∧
  MemoryPool.current_slot_ (order_pool_ r.2) = MemoryPool.current_slot_ (order_pool_ s) ∧
  (r.2 = s ∨
   mem_of r.2
   = <[node := mkOrderNode
         (mkOrder (order_id o) (is_buy o) new_price new_quantity (timestamp_ns o))]>
       (mem_of s)).
Proof.
  intros Hid o. cbv zeta. unfold amend_order. rewrite Hid. fold o.
  destruct (decide (price o ≠ new_price)) as [Hp|Hp].
  - cbn [fst snd]. rewrite lookup_add_to_side, pool_add_to_side, mem_of_add_to_side.
    rewrite mem_of_write_node, mem_of_remove_from_side.
    unfold write_node, set_pool. cbn [order_lookup_ order_pool_
      MemoryPool.blocks_ MemoryPool.current_slot_].
    rewrite lookup_remove_from_side, pool_remove_from_side. split_and!; auto.
  - assert (price o = new_price) as Hp' by (by destruct (decide (price o = new_price))).
    destruct (decide (quantity o ≠ new_quantity)) as [Hq|Hq]; [|by split_and!; auto].
    rewrite Hp'.
    destruct (is_buy o); (case_match; [|by split_and!; auto]);
      cbn [fst snd]; split_and!; auto.
Qed.

(** ** Calling twice *)

(** After [cancel_order id], whatever it returned, the id is not in the
    index: a second [cancel_order] and an [amend_order] of that id return
    false and change nothing. *)
Theorem cancel_order_then_absent s id p q :
  let s1 := (cancel_order id s).2 in
  order_lookup_ s1 !! id = None ∧
  cancel_order id s1 = (false, s1) ∧
  amend_order id p q s1 = (false, s1).
Proof.
  cbv zeta.
  assert (order_lookup_ (cancel_order id s).2 !! id = None) as Hnone.
  { unfold cancel_order. destruct (order_lookup_ s !! id) as [node|] eqn:Hid; [|done].
    cbn [snd]. unfold set_pool, set_lookup. cbn [order_lookup_].
    apply lookup_delete_eq. }
  split_and!; [done| |].
  - unfold cancel_order at 1. by rewrite Hnone.
  - unfold amend_order at 1. by rewrite Hnone.
Qed.

(** [amend_order] is idempotent: repeating a call with the same arguments
    returns the same answer and changes nothing more.  In particular the
    second price amend does not send the order to the back of its queue
    again. *)
Theorem amend_order_idempotent s id p q :
  let r := amend_order id p q s in
  amend_order id p q r.2 = (r.1, r.2).
Proof.
  cbv zeta. destruct (order_lookup_ s !! id) as [node|] eqn:Hid.
  2: { unfold amend_order at 2 3. rewrite Hid. cbn [fst snd].
       unfold amend_order. by rewrite Hid. }
  destruct (amend_order_effect id node p q s Hid) as (Hr & Hlk & _ & _ & Hmem).
  rewrite Hr. destruct Hmem as [Hsame|Hmem].
  - rewrite Hsame. destruct (amend_order id p q s) as [b s']. simpl in *. by subst.
  - unfold amend_order at 1. rewrite Hlk, Hid, Hmem, lookup_total_insert_eq.
    cbn [order price quantity].
    rewrite decide_False by (intros ?; done).
    by rewrite decide_False by (intros ?; done).
Qed.

(** ** What an amend keeps *)


(** ** What an add leaves alone *)

(** In any state and for any order, accepted or dropped, [add_order] leaves
    the other side of the book, every other price level of its own side and
    every entry of the order index as they were.  It never matches: a bid
    above the best ask just rests. *)
Theorem add_order_frame s o :
  side (negb (is_buy o)) (add_order o s) = side (negb (is_buy o)) s ∧
  (∀ p, p ≠ price o →
     StdMap.find (comp_of (is_buy o)) p (side (is_buy o) (add_order o s))
     = StdMap.find (comp_of (is_buy o)) p (side (is_buy o) s)) ∧
  (∀ id h, order_lookup_ s !! id = Some h →
     order_lookup_ (add_order o s) !! id = Some h).
Proof.
  destruct (order_lookup_ s !! order_id o) as [node|] eqn:Hid.
  { unfold add_order. by rewrite Hid. }
  rewrite add_order_unfold by done. split_and!.
  - rewrite side_link_node. rewrite decide_False; [done|]. by destruct (is_buy o).
  - intros p Hp. rewrite find_link_node. rewrite decide_False; [done|].
    by intros [_ ?].
  - intros id h Hl. unfold link_node. cbn [order_lookup_].
    rewrite lookup_insert_ne; [done|]. intros Heq. rewrite Heq in Hid. congruence.
Qed.

(** ** The pool under the book *)

Lemma construct_slots_used o p :
  (MemoryPool.current_slot_ p ≤ MemoryPool.BlockSize)%nat →
  (1 ≤ MemoryPool.blocks_ p)%nat →
  slot_number (MemoryPool.construct o p).1 = slots_used p ∧
  slots_used (MemoryPool.construct o p).2 = S (slots_used p).
Proof.
  intros Hslot Hblocks. unfold MemoryPool.construct, slot_number, slots_used.
  destruct (MemoryPool.BlockSize <=? MemoryPool.current_slot_ p)%nat eqn:E;
    [apply Nat.leb_le in E | apply Nat.leb_gt in E];
    unfold MemoryPool.current_block_, MemoryPool.allocate_block; simpl;
    unfold MemoryPool.BlockSize in *; lia.
Qed.

Lemma reachable_live_nodes_indexed s :
  reachable s →
  (∀ h n, mem_of s !! h = Some n → order_lookup_ s !! order_id (order n) = Some h) ∧
  size (mem_of s) = size (order_lookup_ s).
Proof.
  induction 1 as [|o s Hv Hr [IH1 IH2]|id s Hr [IH1 IH2]|id p q s Hq Hr [IH1 IH2]].
  - split; [|done]. intros h n Hn.
    change (mem_of OrderBook_new) with (∅ : gmap handle OrderNode) in Hn.
    by rewrite lookup_empty in Hn.
  - pose proof (reachable_wf s Hr) as Hwf.
    destruct (order_lookup_ s !! order_id o) as [h0|] eqn:Hid.
    { unfold add_order. by rewrite Hid. }
    rewrite add_order_unfold by done.
    destruct (wf_slot s Hwf) as [Hslot Hblocks].
    destruct (construct_spec o (order_pool_ s) Hslot Hblocks) as (Hst & Hnew & _).
    set (node := (MemoryPool.construct o (order_pool_ s)).1) in *.
    set (pool1 := (MemoryPool.construct o (order_pool_ s)).2) in *.
    clearbody node pool1.
    assert (mem_of s !! node = None) as Hfresh.
    { destruct (mem_of s !! node) as [n|] eqn:Hn; [|done].
      by destruct (wf_mem s Hwf _ n Hn). }
    change (mem_of (link_node node o pool1 s)) with (MemoryPool.storage pool1).
    change (order_lookup_ (link_node node o pool1 s))
      with (<[order_id o := node]> (order_lookup_ s)).
    rewrite Hst. split.
    + intros h n. destruct (decide (h = node)) as [->|Hne].
      * rewrite lookup_insert_eq. intros [= <-]. apply lookup_insert_eq.
      * rewrite lookup_insert_ne by done. intros Hn%IH1.
        rewrite lookup_insert_ne; [done|]. intros Heq. rewrite Heq in Hid. congruence.
    + rewrite !map_size_insert_None by done. f_equal. exact IH2.
  - pose proof (reachable_wf s Hr) as Hwf.
    destruct (order_lookup_ s !! id) as [node|] eqn:Hid.
    2: { unfold cancel_order. by rewrite Hid. }
    rewrite (cancel_order_unfold id node) by done. cbn [snd].
    destruct (wf_lookup s Hwf id node Hid) as (n0 & _ & Hn0 & Hid0 & _).
    change (mem_of (unlink_node id node s)) with (delete node (mem_of s)).
    change (order_lookup_ (unlink_node id node s)) with (delete id (order_lookup_ s)).
    split.
    + intros h n [Hne Hn]%lookup_delete_Some. specialize (IH1 h n Hn).
      rewrite lookup_delete_ne; [done|]. intros Heq. rewrite <- Heq in IH1. congruence.
    + rewrite !map_size_delete_Some by eauto. by rewrite IH2.
  - pose proof (reachable_wf s Hr) as Hwf.
    destruct (order_lookup_ s !! id) as [node|] eqn:Hid.
    2: { unfold amend_order. by rewrite Hid. }
    destruct (wf_lookup s Hwf id node Hid) as (n0 & _ & Hn0 & Hid0 & _).
    destruct (amend_order_effect id node p q s Hid) as (_ & Hlk & _ & _ & [-> | Hmem]);
      [done|].
    rewrite Hlk, Hmem. split.
    + intros h n. destruct (decide (h = node)) as [->|Hne].
      * rewrite lookup_insert_eq. intros [= <-]. cbn [order order_id].
        rewrite (lookup_total_correct _ _ _ Hn0). by rewrite Hid0.
      * rewrite lookup_insert_ne by done. apply IH1.
    + rewrite map_size_insert_Some by eauto. done.
Qed.

(** The pool holds no orphan: in every reachable state each live node is
    the node the order index gives for the id stored in it, and there are as
    many live nodes as indexed orders. *)
Theorem reachable_pool_matches_index s :
  reachable s →
  (∀ h n, mem_of s !! h = Some n → order_lookup_ s !! order_id (order n) = Some h) ∧
  size (mem_of s) = get_order_count s.
Proof. apply reachable_live_nodes_indexed. Qed.

Lemma reachable_pool_matches_index_witness :
  (∀ h n, mem_of book3 !! h = Some n →
          order_lookup_ book3 !! order_id (order n) = Some h) ∧
  size (mem_of book3) = get_order_count book3.
Proof.
  apply reachable_pool_matches_index.
  repeat (apply reach_add; [reflexivity|]). apply reach_new.
Defined.

(** Every pointer of the order index points into the pool: to a live node,
    in a block that has been allocated, at a slot below [BlockSize], and at a
    place of the bump sequence that has been handed out. *)
Theorem reachable_index_in_bounds s id h :
  reachable s →
  order_lookup_ s !! id = Some h →
  is_Some (mem_of s !! h) ∧
  (h.1 < MemoryPool.blocks_ (order_pool_ s))%nat ∧
  (h.2 < MemoryPool.BlockSize)%nat ∧
  (slot_number h < slots_used (order_pool_ s))%nat.
Proof.
  intros Hwf%reachable_wf Hid.
  destruct (wf_lookup s Hwf id h Hid) as (n & _ & Hn & _).
  destruct (wf_mem s Hwf h n Hn) as [Hout _].
  destruct (wf_slot s Hwf) as [Hslot Hblocks].
  split; [eauto|]. unfold MemoryPool.handed_out in Hout.
  unfold slot_number, slots_used. unfold MemoryPool.BlockSize in *.
  destruct (MemoryPool.blocks_ (order_pool_ s)) as [|b]; [lia|]. simpl.
  destruct Hout as [[? ?]|[? ?]]; split_and!; lia.
Qed.

Lemma reachable_index_in_bounds_witness :
  is_Some (mem_of book3 !! (0%nat, 2%nat)) ∧
  ((0%nat, 2%nat).1 < MemoryPool.blocks_ (order_pool_ book3))%nat ∧
  ((0%nat, 2%nat).2 < MemoryPool.BlockSize)%nat ∧
  (slot_number (0%nat, 2%nat) < slots_used (order_pool_ book3))%nat.
Proof.
  apply (reachable_index_in_bounds book3 3).
  - repeat (apply reach_add; [reflexivity|]). apply reach_new.
  - reflexivity.
Defined.

(** The book consumes one slot of the pool for every order it accepts and
    gives none back: a dropped duplicate and a cancel leave the number of
    slots used as it was. *)
Theorem slots_used_counts_accepted_adds s o id :
  reachable s →
  slots_used (order_pool_ (add_order o s))
  = (if decide (is_Some (order_lookup_ s !! order_id o))
     then slots_used (order_pool_ s) else S (slots_used (order_pool_ s))) ∧
  slots_used (order_pool_ (cancel_order id s).2) = slots_used (order_pool_ s).
Proof.
  intros Hwf%reachable_wf. split.
  - destruct (order_lookup_ s !! order_id o) as [h0|] eqn:Hid.
    + rewrite decide_True by eauto. unfold add_order. by rewrite Hid.
    + rewrite decide_False by (by intros [? ?]). rewrite add_order_unfold by done.
      destruct (wf_slot s Hwf) as [Hslot Hblocks].
      by destruct (construct_slots_used o (order_pool_ s) Hslot Hblocks).
  - unfold cancel_order. destruct (order_lookup_ s !! id) as [node|]; [|done].
    unfold slots_used, set_pool, set_lookup. simpl.
    by rewrite pool_remove_from_side.
Qed.

Lemma slots_used_counts_accepted_adds_witness :
  slots_used (order_pool_ (add_order order3 book2))
  = (if decide (is_Some (order_lookup_ book2 !! order_id order3))
     then slots_used (order_pool_ book2) else S (slots_used (order_pool_ book2))) ∧
  slots_used (order_pool_ (cancel_order 1 book2).2) = slots_used (order_pool_ book2).
Proof.
  apply slots_used_counts_accepted_adds.
  repeat (apply reach_add; [reflexivity|]). apply reach_new.
Defined.

(** ** The destructor *)

Lemma storage_destroy_all entries pool h :
  MemoryPool.storage (destroy_all entries pool) !! h
  = if decide (h ∈ entries.*2) then None else MemoryPool.storage pool !! h.
Proof.
  unfold destroy_all. revert pool.
  induction entries as [|[id node] entries IH]; intros pool.
  - destruct (decide _) as [Hin|_]; [|done]. by apply elem_of_nil in Hin.
  - cbn [foldl]. rewrite IH. cbn [MemoryPool.destroy MemoryPool.storage snd].
    rewrite fmap_cons. cbn [snd].
    destruct (decide (h ∈ entries.*2)) as [Hin|Hnin].
    + rewrite decide_True; [done|]. by right.
    + destruct (decide (h = node)) as [->|Hne].
      * rewrite lookup_delete_eq. rewrite decide_True; [done|]. by left.
      * rewrite lookup_delete_ne by done. rewrite decide_False; [done|].
        by intros [?|?]%elem_of_cons.
Qed.

(** [~OrderBook], in whatever order it walks the index, destroys each node
    once, every node it destroys being alive until then, and leaves no live
    node in the pool. *)
Theorem destructor_destroys_every_node s entries :
  reachable s →
  entries ≡ₚ map_to_list (order_lookup_ s) →
  MemoryPool.storage (destroy_all entries (order_pool_ s)) = ∅ ∧
  NoDup entries.*2 ∧
  ∀ e, e ∈ entries → is_Some (mem_of s !! e.2).
Proof.
  intros Hr Hperm. pose proof (reachable_wf s Hr) as Hwf.
  destruct (reachable_live_nodes_indexed s Hr) as [Hidx _].
  assert (∀ id h, (id, h) ∈ entries ↔ order_lookup_ s !! id = Some h) as Hin.
  { intros id h. rewrite Hperm. apply elem_of_map_to_list. }
  split_and!.
  - apply map_eq. intros h. rewrite storage_destroy_all, lookup_empty.
    case_decide as Hh; [done|].
    destruct (MemoryPool.storage (order_pool_ s) !! h) as [n|] eqn:Hn; [|done].
    exfalso. apply Hh. apply list_elem_of_fmap.
    exists (order_id (order n), h). split; [done|]. by apply Hin, Hidx.
  - apply NoDup_fmap_2_strong.
    + intros [id1 h1] [id2 h2] H1%Hin H2%Hin Heq. simpl in Heq. subst h2.
      f_equal. by eapply wf_lookup_inj.
    + rewrite Hperm. apply NoDup_map_to_list.
  - intros [id h] He%Hin. destruct (wf_lookup s Hwf id h He) as (n & _ & Hn & _).
    simpl. eauto.
Qed.

Lemma destructor_destroys_every_node_witness :
  MemoryPool.storage (OrderBook_destructor book3) = ∅ ∧
  NoDup (map_to_list (order_lookup_ book3)).*2 ∧
  ∀ e, e ∈ map_to_list (order_lookup_ book3) → is_Some (mem_of book3 !! e.2).
Proof.
  apply (destructor_destroys_every_node book3 (map_to_list (order_lookup_ book3))).
  - repeat (apply reach_add; [reflexivity|]). apply reach_new.
  - reflexivity.
Defined.

(** ** Cancelling *)

(** A successful [cancel_order] takes exactly one node out of the book: the
    id leaves the index, the count drops by one, the node leaves the pool's
    live nodes, the other nodes of its level stay queued in the order they
    had, the total of the level drops by the quantity of the order (in
    [uint64_t] arithmetic), the level goes when no node is left in it and
    stays otherwise, and every other level of either side is as it was. *)
Theorem cancel_order_removes_one_node s id h o :
  reachable s →
  order_lookup_ s !! id = Some h →
  mem_of s !! h = Some (mkOrderNode o) →
  ∃ level,
    StdMap.find (comp_of (is_buy o)) (price o) (side (is_buy o) s) = Some level ∧
    h ∈ PriceLevelQueue.orders_ level ∧
    let r := cancel_order id s in
    let rest :=
      {| PriceLevelQueue.orders_ :=
           PriceLevelQueue.erase_cell h (PriceLevelQueue.orders_ level);
         PriceLevelQueue.total_quantity_ :=
           wrap64 (PriceLevelQueue.total_quantity_ level - quantity o) |} in
    r.1 = true ∧
    order_lookup_ r.2 = delete id (order_lookup_ s) ∧
    S (get_order_count r.2) = get_order_count s ∧
    mem_of r.2 = delete h (mem_of s) ∧
    (PriceLevelQueue.orders_ rest = [] →
       StdMap.find (comp_of (is_buy o)) (price o) (side (is_buy o) r.2) = None) ∧
    (PriceLevelQueue.orders_ rest ≠ [] →
       StdMap.find (comp_of (is_buy o)) (price o) (side (is_buy o) r.2) = Some rest) ∧
    PriceLevelQueue.orders_ rest `sublist_of` PriceLevelQueue.orders_ level ∧
    (∀ h', h' ∈ PriceLevelQueue.orders_ rest ↔
           h' ∈ PriceLevelQueue.orders_ level ∧ h' ≠ h) ∧
    (∀ buy p, ¬ (buy = is_buy o ∧ p = price o) →
       StdMap.find (comp_of buy) p (side buy r.2)
       = StdMap.find (comp_of buy) p (side buy s)).
Proof.
  intros Hwf%reachable_wf Hid Hn.
  destruct (wf_live_order id h o s Hwf Hid Hn) as (Hn' & Hoid & level & Hf & Hin).
  exists level. split_and!; [done|done|]. cbv zeta.
  pose proof (wf_level_nodup _ _ _ _ Hwf Hf) as Hnd.
  rewrite (cancel_order_unfold id h) by done. cbn [fst snd].
  assert (∀ buy p,
    StdMap.find (comp_of buy) p (side buy (unlink_node id h s))
    = if decide (buy = is_buy o ∧ p = price o)
      then (if PriceLevelQueue.is_empty (PriceLevelQueue.remove_order (mem_of s) h level)
            then None
            else Some (PriceLevelQueue.remove_order (mem_of s) h level))
      else StdMap.find (comp_of buy) p (side buy s)) as Hunlink.
  { intros buy p.
    pose proof (find_unlink_node buy p id h level s) as Hu.
    cbv zeta in Hu. rewrite Hn' in Hu. cbn [order] in Hu.
    apply Hu; [by apply wf_sorted|done]. }
  split_and!.
  - done.
  - done.
  - unfold get_order_count, unlink_node. cbn [order_lookup_].
    rewrite map_size_delete_Some by eauto.
    destruct (size (order_lookup_ s)) eqn:Hsz; [|done].
    apply map_size_empty_inv in Hsz. rewrite Hsz in Hid. by rewrite lookup_empty in Hid.
  - done.
  - intros Hrest. rewrite Hunlink, decide_True by done.
    unfold PriceLevelQueue.remove_order, PriceLevelQueue.is_empty. rewrite Hn'.
    cbn [PriceLevelQueue.orders_ order] in *. by rewrite Hrest.
  - intros Hrest. rewrite Hunlink, decide_True by done.
    unfold PriceLevelQueue.remove_order, PriceLevelQueue.is_empty. rewrite Hn'.
    cbn [PriceLevelQueue.orders_ order] in *.
    by destruct (PriceLevelQueue.erase_cell h (PriceLevelQueue.orders_ level)).
  - apply erase_cell_sublist.
  - intros h'. by apply elem_of_erase_cell.
  - intros buy p Hother. by rewrite Hunlink, decide_False.
Qed.

Lemma cancel_order_removes_one_node_witness :
  ((cancel_order 1 book3).1 = true ∧
   S (get_order_count (cancel_order 1 book3).2) = get_order_count book3 ∧
   StdMap.find greater 10000 (bids_ (cancel_order 1 book3).2)
     = Some {| PriceLevelQueue.orders_ := [(0%nat, 1%nat)];
               PriceLevelQueue.total_quantity_ := 20 |}) ∧
  ((cancel_order 3 book3).1 = true ∧
   S (get_order_count (cancel_order 3 book3).2) = get_order_count book3 ∧
   StdMap.find greater 9950 (bids_ (cancel_order 3 book3).2) = None ∧
   bids_ (cancel_order 3 book3).2 = bids_ book2).
Proof.
  split.
  - destruct (cancel_order_removes_one_node book3 1 (0%nat, 0%nat) order1)
      as (level & Hf & _ & Hr & _ & Hcount & _ & _ & Hfind & _).
    + repeat (apply reach_add; [reflexivity|]). apply reach_new.
    + reflexivity.
    + reflexivity.
    + injection Hf as <-.
      split_and!; [exact Hr|exact Hcount|apply Hfind; discriminate].
  - destruct (cancel_order_removes_one_node book3 3 (0%nat, 2%nat) order3)
      as (level & Hf & _ & Hr & _ & Hcount & _ & Hgone & _).
    + repeat (apply reach_add; [reflexivity|]). apply reach_new.
    + reflexivity.
    + reflexivity.
    + injection Hf as <-.
      split_and!; [exact Hr|exact Hcount|apply Hgone; reflexivity|reflexivity].
Defined.

(** ** Other orders *)

(** An order is touched by calls on its own id only: whatever is added,
    and whichever other id is cancelled or amended, the index keeps giving
    the same node for the id and the node keeps the same record. *)
Theorem other_orders_untouched s id h o id' p q :
  reachable s →
  order_lookup_ s !! id = Some h →
  id' ≠ id →
  (order_lookup_ (add_order o s) !! id = Some h ∧
   mem_of (add_order o s) !! h = mem_of s !! h) ∧
  (order_lookup_ (cancel_order id' s).2 !! id = Some h ∧
   mem_of (cancel_order id' s).2 !! h = mem_of s !! h) ∧
  (order_lookup_ (amend_order id' p q s).2 !! id = Some h ∧
   mem_of (amend_order id' p q s).2 !! h = mem_of s !! h).
Proof.
  intros Hwf%reachable_wf Hid Hne.
  destruct (wf_lookup s Hwf id h Hid) as (n & _ & Hn & _).
  assert (∀ node, order_lookup_ s !! id' = Some node → node ≠ h) as Hother.
  { intros node Hl ->. apply Hne. by eapply wf_lookup_inj. }
  split_and!.
  - destruct (order_lookup_ s !! order_id o) as [h0|] eqn:Hido.
    { unfold add_order. by rewrite Hido. }
    rewrite add_order_unfold by done. unfold link_node. cbn [order_lookup_].
    rewrite lookup_insert_ne; [done|]. intros Heq. rewrite Heq in Hido. congruence.
  - destruct (order_lookup_ s !! order_id o) as [h0|] eqn:Hido.
    { unfold add_order. by rewrite Hido. }
    rewrite add_order_unfold by done.
    destruct (wf_slot s Hwf) as [Hslot Hblocks].
    destruct (construct_spec o (order_pool_ s) Hslot Hblocks) as (Hst & Hnew & _).
    change (mem_of (link_node _ o _ s))
      with (MemoryPool.storage (MemoryPool.construct o (order_pool_ s)).2).
    rewrite Hst. apply lookup_insert_ne. intros Heq. apply Hnew. rewrite Heq.
    by apply (wf_mem s Hwf h n).
  - destruct (order_lookup_ s !! id') as [node|] eqn:Hid'.
    + rewrite (cancel_order_unfold id' node) by done.
      unfold unlink_node. cbn [snd order_lookup_]. by rewrite lookup_delete_ne.
    + unfold cancel_order. by rewrite Hid'.
  - destruct (order_lookup_ s !! id') as [node|] eqn:Hid'.
    + rewrite (cancel_order_unfold id' node) by done.
      change (mem_of (true, unlink_node id' node s).2) with (delete node (mem_of s)).
      apply lookup_delete_ne. by apply Hother.
    + unfold cancel_order. by rewrite Hid'.
  - destruct (order_lookup_ s !! id') as [node|] eqn:Hid'.
    + by destruct (amend_order_effect id' node p q s Hid') as (_ & -> & _).
    + unfold amend_order. by rewrite Hid'.
  - destruct (order_lookup_ s !! id') as [node|] eqn:Hid'.
    + destruct (amend_order_effect id' node p q s Hid') as (_ & _ & _ & _ & [-> | ->]);
        [done|].
      apply lookup_insert_ne. by apply Hother.
    + unfold amend_order. by rewrite Hid'.
Qed.

Lemma other_orders_untouched_witness :
  (order_lookup_ (add_order order4 book3) !! 1 = Some (0%nat, 0%nat) ∧
   mem_of (add_order order4 book3) !! (0%nat, 0%nat) = mem_of book3 !! (0%nat, 0%nat)) ∧
  (order_lookup_ (cancel_order 2 book3).2 !! 1 = Some (0%nat, 0%nat) ∧
   mem_of (cancel_order 2 book3).2 !! (0%nat, 0%nat) = mem_of book3 !! (0%nat, 0%nat)) ∧
  (order_lookup_ (amend_order 2 9950 5 book3).2 !! 1 = Some (0%nat, 0%nat) ∧
   mem_of (amend_order 2 9950 5 book3).2 !! (0%nat, 0%nat)
   = mem_of book3 !! (0%nat, 0%nat)).
Proof.
  apply (other_orders_untouched book3 1 (0%nat, 0%nat) order4 2 9950 5).
  - repeat (apply reach_add; [reflexivity|]). apply reach_new.
  - reflexivity.
  - discriminate.
Defined.

(** ** What an amend leaves alone *)

(** An amend of a live order touches at most two levels, the one the order
    was at and the one it goes to, both on the side of the order: the other
    side and every other price level are as they were. *)
Theorem amend_order_frame s id h o new_price q :
  reachable s →
  order_lookup_ s !! id = Some h →
  mem_of s !! h = Some (mkOrderNode o) →
  let r := amend_order id new_price q s in
  side (negb (is_buy o)) r.2 = side (negb (is_buy o)) s ∧
  ∀ p, p ≠ price o → p ≠ new_price →
    StdMap.find (comp_of (is_buy o)) p (side (is_buy o) r.2)
    = StdMap.find (comp_of (is_buy o)) p (side (is_buy o) s).
Proof.
  intros Hwf%reachable_wf Hid Hn.
  destruct (wf_live_order id h o s Hwf Hid Hn) as (Hn' & Hoid & level & Hf & Hin).
  cbv zeta. destruct (decide (price o = new_price)) as [Hp|Hp].
  - destruct (decide (quantity o = q)) as [Hq|Hq].
    + assert (amend_order id new_price q s = (true, s)) as ->; [|done].
      unfold amend_order. rewrite Hid, Hn'. cbn [order].
      rewrite decide_False by (intros ?; done).
      by rewrite decide_False by (intros ?; done).
    + pose proof (amend_quantity_unfold id h new_price q level s) as Hstep.
      cbv zeta in Hstep. rewrite Hn' in Hstep. cbn [order] in Hstep.
      rewrite Hstep by done. cbn [snd]. split.
      * rewrite side_set_side, decide_False by (by destruct (is_buy o)).
        apply side_write_node.
      * intros p Hp1 _. rewrite side_set_side, decide_True by done.
        rewrite find_modify. by rewrite decide_False.
  - pose proof (amend_price_unfold id h new_price q s) as Hstep.
    cbv zeta in Hstep. rewrite Hn' in Hstep. cbn [order] in Hstep.
    rewrite Hstep by done. cbn [snd]. split.
    + rewrite side_link_node, decide_False by (cbn; by destruct (is_buy o)).
      rewrite side_unlink_node, Hn', decide_False by (cbn; by destruct (is_buy o)).
      done.
    + intros p Hp1 Hp2. rewrite (find_link_node (is_buy o) p).
      rewrite decide_False by (by intros [_ ?]).
      pose proof (find_unlink_node (is_buy o) p id h level s) as Hu.
      cbv zeta in Hu. rewrite Hn' in Hu. cbn [order] in Hu.
      rewrite Hu; [|by apply wf_sorted|done]. by rewrite decide_False by (by intros [_ ?]).
Qed.

Lemma amend_order_frame_witness :
  bids_ (amend_order 4 10200 5 book5).2 = bids_ book5 ∧
  ∀ p, p ≠ 10100 → p ≠ 10200 →
    StdMap.find less p (asks_ (amend_order 4 10200 5 book5).2)
    = StdMap.find less p (asks_ book5).
Proof.
  apply (amend_order_frame book5 4 (0%nat, 3%nat) order4 10200 5).
  - repeat (apply reach_add; [reflexivity|]). apply reach_new.
  - reflexivity.
  - reflexivity.
Defined.

(** ** More on snapshots *)

Lemma side_prices_live buy p s :
  wf s →
  p ∈ (side buy s).*1 ↔
  ∃ id h n, order_lookup_ s !! id = Some h ∧ mem_of s !! h = Some n ∧
            is_buy (order n) = buy ∧ price (order n) = p.
Proof.
  intros Hwf. pose proof (wf_sorted buy s Hwf) as Hs. split.
  - intros ([p' level] & -> & Hin)%list_elem_of_fmap. simpl.
    apply (find_elem_of buy) in Hin; [|done].
    destruct (wf_level s Hwf buy p' level Hin) as (Hne & _ & Hm).
    destruct (PriceLevelQueue.orders_ level) as [|h l] eqn:E; [done|].
    destruct (Hm h) as (n & Hn & Hp & Hb & Hl); [left|].
    by exists (order_id (order n)), h, n.
  - intros (id & h & n & Hl & Hn & Hb & Hp).
    destruct (wf_lookup s Hwf id h Hl) as (n' & level & Hn' & _ & Hf & _).
    assert (n' = n) as -> by congruence. rewrite Hb, Hp in Hf.
    apply (find_elem_of buy) in Hf; [|done].
    apply list_elem_of_fmap. by exists (p, level).
Qed.

(** A snapshot that returns, and is deep enough to hold every level of a
    side, lists exactly the prices at which an order of that side is live. *)
Theorem full_snapshot_lists_live_prices env s depth bids asks p :
  reachable s →
  (N.of_nat (length (bids_ s)) ≤ depth)%N →
  (N.of_nat (length (asks_ s)) ≤ depth)%N →
  thrown (get_snapshot env depth bids asks s) = None →
  let out := get_snapshot env depth bids asks s in
  (p ∈ prices (bids_out out) ↔
   ∃ id h n, order_lookup_ s !! id = Some h ∧ mem_of s !! h = Some n ∧
             is_buy (order n) = true ∧ price (order n) = p) ∧
  (p ∈ prices (asks_out out) ↔
   ∃ id h n, order_lookup_ s !! id = Some h ∧ mem_of s !! h = Some n ∧
             is_buy (order n) = false ∧ price (order n) = p).
Proof.
  intros Hwf%reachable_wf Hb Ha Hret. cbv zeta.
  destruct (get_snapshot_returns _ _ _ _ _ Hret) as [-> ->].
  rewrite !take_ge by lia. unfold prices. rewrite <- !list_fmap_compose.
  split.
  - apply (side_prices_live true p s Hwf).
  - apply (side_prices_live false p s Hwf).
Qed.

Lemma full_snapshot_lists_live_prices_witness :
  let out := get_snapshot lp64 2 StdVector.new StdVector.new book5 in
  (9950 ∈ prices (bids_out out) ↔
   ∃ id h n, order_lookup_ book5 !! id = Some h ∧ mem_of book5 !! h = Some n ∧
             is_buy (order n) = true ∧ price (order n) = 9950) ∧
  (9950 ∈ prices (asks_out out) ↔
   ∃ id h n, order_lookup_ book5 !! id = Some h ∧ mem_of book5 !! h = Some n ∧
             is_buy (order n) = false ∧ price (order n) = 9950).
Proof.
  apply (full_snapshot_lists_live_prices lp64 book5 2 StdVector.new StdVector.new 9950).
  - repeat (apply reach_add; [reflexivity|]). apply reach_new.
  - vm_compute. discriminate.
  - vm_compute. discriminate.
  - reflexivity.
Defined.

(** A deeper snapshot extends a shallower one: whatever the output vectors
    held at entry, and whether or not the shallower call returns, what it
    leaves in each vector is a prefix of what a deeper call that returns
    leaves there.  At depth 0 both vectors are left empty. *)
Theorem snapshot_depth_monotone env env' s d d' bids asks bids' asks' :
  (d ≤ d')%N →
  thrown (get_snapshot env' d' bids' asks' s) = None →
  bids_out (get_snapshot env d bids asks s)
    `prefix_of` bids_out (get_snapshot env' d' bids' asks' s) ∧
  asks_out (get_snapshot env d bids asks s)
    `prefix_of` asks_out (get_snapshot env' d' bids' asks' s) ∧
  bids_out (get_snapshot env 0 bids asks s) = [] ∧
  asks_out (get_snapshot env 0 bids asks s) = [].
Proof.
  intros Hd Hret'. destruct (get_snapshot_returns _ _ _ _ _ Hret') as [-> ->].
  assert (∀ m : list (Z * PriceLevelQueue.t),
            entry <$> take (N.to_nat d) m `prefix_of` entry <$> take (N.to_nat d') m)
    as Hpre.
  { intros m. replace (N.to_nat d) with (min (N.to_nat d) (N.to_nat d')) by lia.
    rewrite <- take_take, !fmap_take. apply prefix_take. }
  assert (∀ depth,
    (bids_out (get_snapshot env depth bids asks s) = []
     ∧ asks_out (get_snapshot env depth bids asks s) = []) ∨
    (bids_out (get_snapshot env depth bids asks s)
       = entry <$> take (N.to_nat depth) (bids_ s)
     ∧ asks_out (get_snapshot env depth bids asks s)
       = entry <$> take (N.to_nat depth) (asks_ s))) as Hends.
  { intros depth. destruct (thrown (get_snapshot env depth bids asks s)) eqn:E.
    - left. apply get_snapshot_throws. by rewrite E.
    - right. by apply get_snapshot_returns. }
  split_and!.
  - destruct (Hends d) as [[-> _]|[-> _]]; [apply prefix_nil|apply Hpre].
  - destruct (Hends d) as [[_ ->]|[_ ->]]; [apply prefix_nil|apply Hpre].
  - by destruct (Hends 0%N) as [[-> _]|[-> _]].
  - by destruct (Hends 0%N) as [[_ ->]|[_ ->]].
Qed.

Lemma snapshot_depth_monotone_witness :
  let shallow := get_snapshot lp64 1 StdVector.new StdVector.new book5 in
  let failed := get_snapshot lp64_short 1 StdVector.new StdVector.new book5 in
  let deep := get_snapshot lp64 2 (vector_of [mkPriceLevel 1 1]) StdVector.new book5 in
  (bids_out shallow `prefix_of` bids_out deep ∧
   asks_out shallow `prefix_of` asks_out deep ∧
   bids_out (get_snapshot lp64 0 StdVector.new StdVector.new book5) = [] ∧
   asks_out (get_snapshot lp64 0 StdVector.new StdVector.new book5) = []) ∧
  (bids_out failed `prefix_of` bids_out deep ∧
   asks_out failed `prefix_of` asks_out deep ∧
   bids_out (get_snapshot lp64_short 0 StdVector.new StdVector.new book5) = [] ∧
   asks_out (get_snapshot lp64_short 0 StdVector.new StdVector.new book5) = []).
Proof.
  split.
  - apply (snapshot_depth_monotone lp64 lp64 book5 1 2); [lia | reflexivity].
  - apply (snapshot_depth_monotone lp64_short lp64 book5 1 2); [lia | reflexivity].
Defined.

(** A reachable book has no orders exactly when it has no price level on
    either side, that is when its snapshots are empty. *)
Theorem no_orders_no_levels s :
  reachable s →
  get_order_count s = 0%nat ↔ bids_ s = [] ∧ asks_ s = [].
Proof.
  intros Hwf%reachable_wf. unfold get_order_count. rewrite (wf_count s Hwf).
  assert (∀ buy, level_handles (side buy s) = [] → side buy s = []) as Hempty.
  { intros buy Hl. destruct (side buy s) as [|[p level] m] eqn:E; [done|].
    assert (StdMap.find (comp_of buy) p (side buy s) = Some level) as Hf.
    { apply find_elem_of; [by apply wf_sorted|]. rewrite E. left. }
    destruct (wf_level s Hwf buy p level Hf) as (Hne & _).
    rewrite level_handles_cons in Hl. by apply app_eq_nil in Hl as [? _]. }
  unfold book_handles. rewrite length_zero_iff_nil. split.
  - intros [Hb Ha]%app_eq_nil. split; [apply (Hempty true Hb)|apply (Hempty false Ha)].
  - intros [-> ->]. done.
Qed.

Lemma no_orders_no_levels_witness :
  get_order_count (cancel_order 1 book1).2 = 0%nat ↔
  bids_ (cancel_order 1 book1).2 = [] ∧ asks_ (cancel_order 1 book1).2 = [].
Proof.
  apply no_orders_no_levels.
  apply reach_cancel, reach_add; [reflexivity|apply reach_new].
Defined.

(** ** No slot twice *)

Lemma pool_later_reachable p p' :
  pool_reachable p → pool_later p p' →
  pool_reachable p' ∧ (slots_used p ≤ slots_used p')%nat.
Proof.
  intros Hp. induction 1 as [|o p' _ [IH1 IH2]|ptr p' _ [IH1 IH2]].
  - done.
  - split; [by constructor|].
    destruct (pool_reachable_ok p' IH1) as (Hslot & Hblocks & _).
    destruct (construct_slots_used o p' Hslot Hblocks) as [_ ->]. lia.
  - split; [by constructor|done].
Qed.

(** The pool never hands a slot out twice: once [construct] has returned a
    slot, no later [construct] returns it again, whatever has been destroyed
    in between. *)
Theorem construct_never_repeats_a_slot o o' p p' :
  pool_reachable p →
  pool_later (MemoryPool.construct o p).2 p' →
  (MemoryPool.construct o' p').1 ≠ (MemoryPool.construct o p).1.
Proof.
  intros Hp Hlater Heq.
  destruct (pool_reachable_ok p Hp) as (Hslot & Hblocks & _).
  destruct (construct_slots_used o p Hslot Hblocks) as [Hnum Hused].
  destruct (pool_later_reachable _ p' (pool_reach_construct o p Hp) Hlater)
    as [Hp' Hle].
  destruct (pool_reachable_ok p' Hp') as (Hslot' & Hblocks' & _).
  destruct (construct_slots_used o' p' Hslot' Hblocks') as [Hnum' _].
  rewrite Heq, Hnum in Hnum'. lia.
Qed.

Lemma construct_never_repeats_a_slot_witness :
  (MemoryPool.construct order2
     (MemoryPool.destroy (0%nat, 0%nat) (MemoryPool.construct order1 MemoryPool.new).2)).1
  ≠ (MemoryPool.construct order1 MemoryPool.new).1.
Proof.
  apply construct_never_repeats_a_slot.
  - apply pool_reach_new.
  - apply pool_later_destroy, pool_later_now.
Defined.

(** ** Amending, then cancelling *)

Lemma modify_ext {V} buy (f g : V → V) k v (m : list (Z * V)) :
  StdMap.find (comp_of buy) k m = Some v → f v = g v →
  StdMap.modify (comp_of buy) f k m = StdMap.modify (comp_of buy) g k m.
Proof.
  induction m as [|[k1 v1] m IH]; simpl; [done|].
  repeat case_match; try done; intros Hf Hv.
  - by rewrite IH.
  - injection Hf as ->. by rewrite Hv.
Qed.

Lemma unlink_link_node node o pool s :
  wf s →
  mem_of s !! node = None →
  MemoryPool.storage pool = <[node := mkOrderNode o]> (mem_of s) →
  unlink_node (order_id o) node (link_node node o pool s)
  = {| bids_ := bids_ s; asks_ := asks_ s;
       order_lookup_ := delete (order_id o) (order_lookup_ s);
       order_pool_ := MemoryPool.destroy node pool |}.
Proof.
  intros Hwf Hfresh Hst. unfold unlink_node.
  change (mem_of (link_node node o pool s)) with (MemoryPool.storage pool).
  rewrite Hst, lookup_total_insert_eq. cbn [order].
  assert (∀ buy,
    pop_level (comp_of buy) (<[node := mkOrderNode o]> (mem_of s)) node (price o)
      (push_level (comp_of buy) (<[node := mkOrderNode o]> (mem_of s)) node (price o)
         (side buy s)) = side buy s) as Hside.
  { intros buy. destruct (wf_level_default buy (price o) s Hwf) as [Htot Hm].
    apply pop_push_level.
    - intros (n & Hn & _)%Hm. congruence.
    - rewrite Htot. apply wrap64_range.
    - intros level Hf. by destruct (wf_level s Hwf buy _ level Hf). }
  unfold link_node. cbn [bids_ asks_ order_lookup_ order_pool_]. rewrite Hst.
  rewrite delete_insert_eq.
  destruct (is_buy o); f_equal; [apply (Hside true)|apply (Hside false)].
Qed.

(** An amend leaves nothing behind: in every reachable state, cancelling
    an id right after amending it gives the same answer and the same book,
    pool included, as cancelling it straight away. *)
Theorem amend_then_cancel_is_cancel s id p q :
  reachable s →
  cancel_order id (amend_order id p q s).2 = cancel_order id s.
Proof.
  intros Hwf%reachable_wf.
  destruct (order_lookup_ s !! id) as [h|] eqn:Hid.
  2: { unfold amend_order. by rewrite Hid. }
  destruct (wf_lookup s Hwf id h Hid) as ([o] & level & Hn & Hoid & Hf & Hin).
  pose proof (lookup_total_correct _ _ _ Hn) as Hn'. cbn [order] in *.
  rewrite (cancel_order_unfold id h s) by done.
  destruct (decide (price o = p)) as [Hp|Hp].
  - destruct (decide (quantity o = q)) as [Hq|Hq].
    + assert (amend_order id p q s = (true, s)) as ->.
      { unfold amend_order. rewrite Hid, Hn'. cbn [order].
        rewrite decide_False by (intros ?; done).
        by rewrite decide_False by (intros ?; done). }
      by apply cancel_order_unfold.
    + pose proof (amend_quantity_unfold id h p q level s) as Hstep.
      cbv zeta in Hstep. rewrite Hn' in Hstep. cbn [order] in Hstep.
      rewrite Hstep by done. clear Hstep. cbn [snd].
      set (o' := mkOrder (order_id o) (is_buy o) (price o) q (timestamp_ns o)).
      set (s1 := set_side _ _ _).
      assert (order_lookup_ s1 = order_lookup_ s) as Hlk
        by (unfold s1; by rewrite lookup_set_side).
      assert (mem_of s1 = <[h := mkOrderNode o']> (mem_of s)) as Hmem
        by (unfold s1; by rewrite mem_of_set_side).
      rewrite (cancel_order_unfold id h s1) by (by rewrite Hlk). f_equal.
      unfold unlink_node. rewrite Hmem, lookup_total_insert_eq, Hn', Hlk.
      cbn [order is_buy price o'].
      assert (∀ buy, buy = is_buy o →
        pop_level (comp_of buy) (<[h := mkOrderNode o']> (mem_of s)) h (price o)
          (side buy s1)
        = pop_level (comp_of buy) (mem_of s) h (price o) (side buy s)) as Hpop.
      { intros buy ->. unfold s1. rewrite side_set_side, decide_True by done.
        unfold pop_level. rewrite find_modify, decide_True, Hf by done.
        cbn [fmap option_fmap option_map].
        assert (PriceLevelQueue.remove_order (<[h := mkOrderNode o']> (mem_of s)) h
                  (PriceLevelQueue.update_quantity (quantity o) q level)
                = PriceLevelQueue.remove_order (mem_of s) h level) as Hsame.
        { unfold PriceLevelQueue.remove_order, PriceLevelQueue.update_quantity.
          rewrite lookup_total_insert_eq, Hn'.
          cbn [order quantity o' PriceLevelQueue.orders_ PriceLevelQueue.total_quantity_].
          f_equal. rewrite wrap64_add_l, wrap64_sub_l. f_equal. lia. }
        rewrite Hsame. destruct (PriceLevelQueue.is_empty _).
        - by rewrite !erase_modify.
        - rewrite modify_modify. by apply (modify_ext _ _ _ _ level). }
      assert (∀ buy, buy ≠ is_buy o → side buy s1 = side buy s) as Hoff.
      { intros buy Hb. unfold s1. rewrite side_set_side, decide_False by done.
        apply side_write_node. }
      assert (order_pool_ s1 = order_pool_ (write_node h (mkOrderNode o') s)) as Hpool
        by (unfold s1; by rewrite pool_set_side).
      rewrite Hpool. unfold write_node, set_pool, MemoryPool.destroy.
      cbn [order_pool_ MemoryPool.blocks_ MemoryPool.current_slot_ MemoryPool.storage].
      rewrite delete_insert_eq. fold (mem_of s).
      destruct (is_buy o) eqn:Hb; f_equal;
        first [ by apply (Hpop true) | by apply (Hpop false)
              | by apply (Hoff true) | by apply (Hoff false) ].
  - pose proof (amend_price_unfold id h p q s) as Hstep.
    cbv zeta in Hstep. rewrite Hn' in Hstep. cbn [order] in Hstep.
    rewrite Hstep by done. clear Hstep. cbn [snd].
    set (o' := mkOrder (order_id o) (is_buy o) p q (timestamp_ns o)).
    set (s0 := unlink_node id h s).
    assert (wf s0) as Hwf0 by (by apply wf_unlink_node).
    rewrite (cancel_order_unfold id h).
    2: { unfold link_node. cbn [order_lookup_ order_id o']. rewrite Hoid.
         apply lookup_insert_eq. }
    f_equal. replace id with (order_id o') at 1 by done.
    rewrite unlink_link_node; [|done|apply lookup_delete_eq|].
    2: { unfold s0, unlink_node, write_node, set_pool, mem_of.
         cbn [order_pool_ MemoryPool.storage MemoryPool.destroy].
         by rewrite insert_delete_eq. }
    unfold s0, unlink_node, write_node, set_pool, MemoryPool.destroy.
    cbn [bids_ asks_ order_lookup_ order_pool_ order_id o'
         MemoryPool.blocks_ MemoryPool.current_slot_ MemoryPool.storage].
    rewrite Hoid, delete_insert_eq. fold (mem_of s).
    f_equal. by rewrite delete_delete_eq.
Qed.

Lemma amend_then_cancel_is_cancel_witness :
  cancel_order 1 (amend_order 1 9950 50 book3).2 = cancel_order 1 book3.
Proof.
  apply amend_then_cancel_is_cancel.
  repeat (apply reach_add; [reflexivity|]). apply reach_new.
Defined.

(** ** Time priority *)

Lemma filter_erase_cell h (l : list handle) :
  filter (λ x, x ≠ h) (PriceLevelQueue.erase_cell h l) = filter (λ x, x ≠ h) l.
Proof.
  induction l as [|x l IH]; [done|]. cbn [PriceLevelQueue.erase_cell].
  destruct (decide (x = h)) as [->|Hne].
  - by rewrite filter_cons_False by (intros ?; done).
  - by rewrite !filter_cons_True, IH by done.
Qed.

Lemma queue_at_link_node buy p node o pool s :
  queue_at buy p (link_node node o pool s)
  = queue_at buy p s ++ (if decide (buy = is_buy o ∧ p = price o) then [node] else []).
Proof.
  unfold queue_at. rewrite find_link_node. case_decide; [|by rewrite app_nil_r].
  by destruct (StdMap.find _ _ _).
Qed.

Lemma queue_at_unlink_node buy p id h o level s :
  wf s →
  mem_of s !!! h = mkOrderNode o →
  StdMap.find (comp_of (is_buy o)) (price o) (side (is_buy o) s) = Some level →
  queue_at buy p (unlink_node id h s)
  = if decide (buy = is_buy o ∧ p = price o)
    then PriceLevelQueue.erase_cell h (queue_at buy p s)
    else queue_at buy p s.
Proof.
  intros Hwf Hn Hf. unfold queue_at.
  pose proof (find_unlink_node buy p id h level s) as Hu.
  cbv zeta in Hu. rewrite Hn in Hu. cbn [order] in Hu.
  rewrite Hu; [|by apply wf_sorted|done].
  case_decide as Hc; [|done]. destruct Hc as [-> ->]. rewrite Hf.
  unfold PriceLevelQueue.is_empty. cbn.
  destruct (PriceLevelQueue.erase_cell h (PriceLevelQueue.orders_ level)) eqn:E;
    [done|]. cbn. by rewrite E.
Qed.

(** No call changes the time priority among the orders it is not about.  At
    every price of either side: [add_order] only ever extends the queue at
    its tail; [cancel_order] and [amend_order] of an id leave the queue, once
    the node of that id is set aside, exactly as it was. *)
Theorem time_priority_of_others_kept s buy p :
  reachable s →
  (∀ o, queue_at buy p s `prefix_of` queue_at buy p (add_order o s)) ∧
  (∀ id h, order_lookup_ s !! id = Some h →
     filter (λ x, x ≠ h) (queue_at buy p (cancel_order id s).2)
     = filter (λ x, x ≠ h) (queue_at buy p s)) ∧
  (∀ id h new_price q, order_lookup_ s !! id = Some h →
     filter (λ x, x ≠ h) (queue_at buy p (amend_order id new_price q s).2)
     = filter (λ x, x ≠ h) (queue_at buy p s)).
Proof.
  intros Hwf%reachable_wf. split_and!.
  - intros o. destruct (order_lookup_ s !! order_id o) as [h0|] eqn:Hid.
    { unfold add_order. by rewrite Hid. }
    rewrite add_order_unfold, queue_at_link_node by done. by apply prefix_app_r.
  - intros id h Hid.
    destruct (wf_lookup s Hwf id h Hid) as ([o] & level & Hn & Hoid & Hf & Hin).
    pose proof (lookup_total_correct _ _ _ Hn) as Hn'. cbn [order] in *.
    rewrite (cancel_order_unfold id h) by done. cbn [snd].
    rewrite (queue_at_unlink_node buy p id h o level) by done.
    case_decide; [|done]. apply filter_erase_cell.
  - intros id h new_price q Hid.
    destruct (wf_lookup s Hwf id h Hid) as ([o] & level & Hn & Hoid & Hf & Hin).
    pose proof (lookup_total_correct _ _ _ Hn) as Hn'. cbn [order] in *.
    destruct (decide (price o = new_price)) as [Hp|Hp].
    + destruct (decide (quantity o = q)) as [Hq|Hq].
      * assert (amend_order id new_price q s = (true, s)) as ->; [|done].
        unfold amend_order. rewrite Hid, Hn'. cbn [order].
        rewrite decide_False by (intros ?; done).
        by rewrite decide_False by (intros ?; done).
      * pose proof (amend_quantity_unfold id h new_price q level s) as Hstep.
        cbv zeta in Hstep. rewrite Hn' in Hstep. cbn [order] in Hstep.
        rewrite Hstep by done. cbn [snd]. f_equal. unfold queue_at.
        rewrite side_set_side. destruct (decide (buy = is_buy o)) as [->|Hb].
        -- rewrite find_modify. case_decide as Hc; [|done]. rewrite Hc, Hf. done.
        -- by rewrite side_write_node.
    + pose proof (amend_price_unfold id h new_price q s) as Hstep.
      cbv zeta in Hstep. rewrite Hn' in Hstep. cbn [order] in Hstep.
      rewrite Hstep by done. cbn [snd].
      rewrite queue_at_link_node, filter_app.
      rewrite (queue_at_unlink_node buy p id h o level) by done.
      cbn [is_buy price].
      replace (filter (λ x, x ≠ h)
                 (if decide (buy = is_buy o ∧ p = new_price) then [h] else []))
        with (@nil handle).
      2: { case_decide; [|done]. by rewrite filter_cons_False by (intros ?; done). }
      rewrite app_nil_r. case_decide; [|done]. apply filter_erase_cell.
Qed.

Lemma time_priority_of_others_kept_witness :
  (∀ o, queue_at true 10000 book3 `prefix_of` queue_at true 10000 (add_order o book3)) ∧
  (∀ id h, order_lookup_ book3 !! id = Some h →
     filter (λ x, x ≠ h) (queue_at true 10000 (cancel_order id book3).2)
     = filter (λ x, x ≠ h) (queue_at true 10000 book3)) ∧
  (∀ id h new_price q, order_lookup_ book3 !! id = Some h →
     filter (λ x, x ≠ h) (queue_at true 10000 (amend_order id new_price q book3).2)
     = filter (λ x, x ≠ h) (queue_at true 10000 book3)).
Proof.
  apply time_priority_of_others_kept.
  repeat (apply reach_add; [reflexivity|]). apply reach_new.
Defined.

(** Every entry of a snapshot reports a level that holds at least one
    order, with the sum (a [uint64_t] sum) of the quantities of the orders
    queued at that price on that side. *)
Theorem snapshot_totals_are_level_sums env s depth bids asks e :
  reachable s →
  let out := get_snapshot env depth bids asks s in
  (e ∈ bids_out out →
   queue_at true (level_price e) s ≠ [] ∧
   level_total_quantity e
   = wrap64 (sum_quantity (mem_of s) (queue_at true (level_price e) s))) ∧
  (e ∈ asks_out out →
   queue_at false (level_price e) s ≠ [] ∧
   level_total_quantity e
   = wrap64 (sum_quantity (mem_of s) (queue_at false (level_price e) s))).
Proof.
  intros Hwf%reachable_wf. cbv zeta.
  assert (∀ buy, e ∈ entry <$> take (N.to_nat depth) (side buy s) →
    queue_at buy (level_price e) s ≠ [] ∧
    level_total_quantity e
    = wrap64 (sum_quantity (mem_of s) (queue_at buy (level_price e) s))) as Hside.
  { intros buy ([p level] & -> & Hin)%list_elem_of_fmap.
    assert ((p, level) ∈ side buy s) as Hin'
      by (eapply elem_of_sublist; [done|apply sublist_take]).
    apply (find_elem_of buy) in Hin'; [|by apply wf_sorted].
    destruct (wf_level s Hwf buy p level Hin') as (Hne & Htot & _).
    unfold queue_at, entry. cbn [fst snd level_price level_total_quantity].
    by rewrite Hin'. }
  destruct (thrown (get_snapshot env depth bids asks s)) eqn:E.
  - destruct (get_snapshot_throws env depth bids asks s) as [-> ->]; [by rewrite E|].
    split; intros Hin; by apply elem_of_nil in Hin.
  - destruct (get_snapshot_returns env depth bids asks s E) as [-> ->].
    split; [apply (Hside true)|apply (Hside false)].
Qed.

Lemma snapshot_totals_are_level_sums_witness :
  let e := mkPriceLevel 10000 30 in
  let out := get_snapshot lp64 2 StdVector.new StdVector.new book5 in
  (e ∈ bids_out out →
   queue_at true (level_price e) book5 ≠ [] ∧
   level_total_quantity e
   = wrap64 (sum_quantity (mem_of book5) (queue_at true (level_price e) book5))) ∧
  (e ∈ asks_out out →
   queue_at false (level_price e) book5 ≠ [] ∧
   level_total_quantity e
   = wrap64 (sum_quantity (mem_of book5) (queue_at false (level_price e) book5))).
Proof.
  apply (snapshot_totals_are_level_sums lp64 book5 2 StdVector.new StdVector.new
           (mkPriceLevel 10000 30)).
  repeat (apply reach_add; [reflexivity|]). apply reach_new.
Defined.
